(** * The RTTI transformer: type-reference serialization and import resolution

    A shallow embedding of the transformer of the rtti package and of its
    [flags.ts].  The TypeScript compiler API is an external
    collaborator: the part of its syntax tree the transformer inspects is
    written out as inductive types, and the transformer's closures over the
    per-module [importMap] become computations in a state-and-exception
    monad. *)

From Stdlib Require Import String List ZArith Bool Lia.
Import ListNotations.
Open Scope string_scope.
Open Scope list_scope.
Set Warnings "-register-all".

(** ** Exceptions and results *)

(** [Error msg] is [new Error(msg)]; [TypeError] is the exception the
    JavaScript engine raises when a property of [undefined] is read. *)
Inductive Exn : Type :=
| Error (message : string)
| TypeError.

Inductive result (A : Type) : Type :=
| Ok (a : A)
| Throw (e : Exn).
Arguments Ok {A} a.
Arguments Throw {A} e.

(** ** Syntax kinds

    The members of [ts.SyntaxKind] carried by the token and type nodes the
    transformer looks at, except [TypeReference] and [ArrayType], which are
    the kinds of the two structured type nodes below.  None of them is
    aliased in the enum, so [ts.SyntaxKind[kind]] is the member's name. *)
Inductive SyntaxKind : Type :=
| StringKeyword | NumberKeyword | BooleanKeyword | BigIntKeyword
| AnyKeyword | UnknownKeyword | ObjectKeyword | SymbolKeyword
| VoidKeyword | UndefinedKeyword | NeverKeyword
| FunctionType | ConstructorType | TypeQuery | TypeLiteral
| TupleType | OptionalType | RestType | UnionType | IntersectionType
| ConditionalType | InferType | ParenthesizedType | ThisType
| TypeOperator | IndexedAccessType | MappedType | LiteralType
| PublicKeyword | PrivateKeyword | ProtectedKeyword | ReadonlyKeyword
| AbstractKeyword | StaticKeyword | ExportKeyword | DefaultKeyword
| DeclareKeyword | AsyncKeyword | OverrideKeyword.

Definition SyntaxKind_eq_dec (a b : SyntaxKind) : {a = b} + {a <> b}.
Proof. decide equality. Defined.

Definition kind_is (a b : SyntaxKind) : bool :=
  if SyntaxKind_eq_dec a b then true else false.

(** [ts.SyntaxKind[kind]]: the reverse mapping of the enum. *)
Definition SyntaxKind_name (k : SyntaxKind) : string :=
  match k with
  | StringKeyword => "StringKeyword" | NumberKeyword => "NumberKeyword"
  | BooleanKeyword => "BooleanKeyword" | BigIntKeyword => "BigIntKeyword"
  | AnyKeyword => "AnyKeyword" | UnknownKeyword => "UnknownKeyword"
  | ObjectKeyword => "ObjectKeyword" | SymbolKeyword => "SymbolKeyword"
  | VoidKeyword => "VoidKeyword" | UndefinedKeyword => "UndefinedKeyword"
  | NeverKeyword => "NeverKeyword"
  | FunctionType => "FunctionType" | ConstructorType => "ConstructorType"
  | TypeQuery => "TypeQuery" | TypeLiteral => "TypeLiteral"
  | TupleType => "TupleType" | OptionalType => "OptionalType"
  | RestType => "RestType" | UnionType => "UnionType"
  | IntersectionType => "IntersectionType"
  | ConditionalType => "ConditionalType" | InferType => "InferType"
  | ParenthesizedType => "ParenthesizedType" | ThisType => "ThisType"
  | TypeOperator => "TypeOperator"
  | IndexedAccessType => "IndexedAccessType"
  | MappedType => "MappedType" | LiteralType => "LiteralType"
  | PublicKeyword => "PublicKeyword" | PrivateKeyword => "PrivateKeyword"
  | ProtectedKeyword => "ProtectedKeyword"
  | ReadonlyKeyword => "ReadonlyKeyword"
  | AbstractKeyword => "AbstractKeyword" | StaticKeyword => "StaticKeyword"
  | ExportKeyword => "ExportKeyword" | DefaultKeyword => "DefaultKeyword"
  | DeclareKeyword => "DeclareKeyword" | AsyncKeyword => "AsyncKeyword"
  | OverrideKeyword => "OverrideKeyword"
  end.

(** A modifier is a token; only its [kind] is ever read. *)
Definition Modifier : Type := SyntaxKind.
Definition kind (x : Modifier) : SyntaxKind := x.

(** [ts.ModifiersArray], which is [undefined] on a declaration without
    modifiers. *)
Definition ModifiersArray : Type := option (list Modifier).

(** ** Names, type nodes and expressions *)

(** [ts.EntityName]: an identifier or a dotted path [left.right]. *)
Inductive EntityName : Type :=
| NameIdentifier (text : string)
| QualifiedName (left : EntityName) (right : string).

(** The type nodes.  A [TypeReferenceNode] has a [typeName], an
    [ArrayTypeNode] an [elementType]; of every other type node only the
    [kind] is read. *)
Inductive TypeNode : Type :=
| TypeReferenceNode (typeName : EntityName)
| ArrayTypeNode (elementType : TypeNode)
| OtherTypeNode (k : SyntaxKind).

(** The expressions the transformer builds with [ts.factory]. *)
Inductive Expression : Type :=
| Identifier (text : string)
| VoidZero
| StringLiteral (text : string)
| PropertyAccessExpression (expression : Expression) (name : string)
| CallExpression (expression : Expression) (arguments : list Expression)
| ArrayLiteralExpression (elements : list Expression)
| ArrowFunction (body : Expression).

(** Modelled from the spec: [getRootNameOfEntityName] of [./utils], which
    is not among the sources.  The root name is the leftmost identifier of
    a possibly dotted type reference. *)
Fixpoint getRootNameOfEntityName (entityName : EntityName) : string :=
  match entityName with
  | NameIdentifier text => text
  | QualifiedName l _ => getRootNameOfEntityName l
  end.

(** Modelled from the spec: [cloneEntityNameAsExpr] of [./utils], which is
    not among the sources.  The member-access path of the entity name is
    rebuilt as property accesses, with [rootName] as its new root. *)
Fixpoint cloneEntityNameAsExpr (entityName : EntityName) (rootName : string)
  : Expression :=
  match entityName with
  | NameIdentifier _ => Identifier rootName
  | QualifiedName l r =>
      PropertyAccessExpression (cloneEntityNameAsExpr l rootName) r
  end.

(** Modelled from the spec: [forwardRef] of [./forward-ref], which is not
    among the sources.  It wraps an expression in a zero-argument thunk. *)
Definition forwardRef (e : Expression) : Expression := ArrowFunction e.

(** ** Import declarations and import records *)

Record ImportSpecifier : Type := {
  propertyName : option string;
  spec_name : string
}.

Inductive NamedImportBindings : Type :=
| NamedImports (elements : list ImportSpecifier)
| NamespaceImport (ns_name : string).

Record ImportClause : Type := {
  clause_name : option string;
  namedBindings : option NamedImportBindings
}.

(** JavaScript compares nodes by reference.  Every node carries its [pos];
    the parser gives distinct statements distinct positions and every node
    made by [ts.factory] has position [-1], so two import declarations are
    taken to be the same node when they agree in all their fields. *)
Record ImportDeclaration : Type := {
  pos : Z;
  importClause : option ImportClause;
  moduleSpecifier : string
}.

Definition option_eq_dec {A} (d : forall a b : A, {a = b} + {a <> b})
  (x y : option A) : {x = y} + {x <> y}.
Proof. decide equality. Defined.

Definition ImportSpecifier_eq_dec (a b : ImportSpecifier) : {a = b} + {a <> b}.
Proof. decide equality; [apply string_dec | apply option_eq_dec, string_dec]. Defined.

Definition NamedImportBindings_eq_dec (a b : NamedImportBindings)
  : {a = b} + {a <> b}.
Proof.
  decide equality; [apply list_eq_dec, ImportSpecifier_eq_dec | apply string_dec].
Defined.

Definition ImportClause_eq_dec (a b : ImportClause) : {a = b} + {a <> b}.
Proof.
  decide equality;
    [apply option_eq_dec, NamedImportBindings_eq_dec
    | apply option_eq_dec, string_dec].
Defined.

Definition ImportDeclaration_eq_dec (a b : ImportDeclaration)
  : {a = b} + {a <> b}.
Proof.
  decide equality;
    [apply string_dec | apply option_eq_dec, ImportClause_eq_dec | apply Z.eq_dec].
Defined.

(** The interface [TypeImport] of the transformer. *)
Record TypeImport : Type := {
  importDeclaration : ImportDeclaration;
  refName : string;
  modulePath : string;
  isNamespace : bool;
  referenced : option bool;
  name : string;
  localName : string
}.

(** [impo.referenced = true] *)
Definition set_referenced (impo : TypeImport) : TypeImport :=
  {| importDeclaration := importDeclaration impo;
     refName := refName impo;
     modulePath := modulePath impo;
     isNamespace := isNamespace impo;
     referenced := Some true;
     name := name impo;
     localName := localName impo |}.

(** Truthiness of an optional boolean. *)
Definition truthy (b : option bool) : bool :=
  match b with Some true => true | _ => false end.

(** ** The import map

    A JavaScript [Map<string,TypeImport>]: iteration follows insertion
    order, and [set] on a key that is present replaces the value where it
    stands. *)
Definition ImportMap : Type := list (string * TypeImport).

Fixpoint map_get (key : string) (m : ImportMap) : option TypeImport :=
  match m with
  | [] => None
  | (k, v) :: rest => if String.eqb key k then Some v else map_get key rest
  end.

Fixpoint map_set (key : string) (value : TypeImport) (m : ImportMap)
  : ImportMap :=
  match m with
  | [] => [(key, value)]
  | (k, v) :: rest =>
      if String.eqb key k then (key, value) :: rest
      else (k, v) :: map_set key value rest
  end.

Definition map_values (m : ImportMap) : list TypeImport := map snd m.

(** ** The state-and-exception monad of one module's processing

    The [importMap] is local to the processing of one source file; an
    exception leaves that processing, so no state survives a throw. *)
Definition M (A : Type) : Type := ImportMap -> result (A * ImportMap).

Definition ret {A} (a : A) : M A := fun m => Ok (a, m).

Definition bind {A B} (c : M A) (k : A -> M B) : M B :=
  fun m => match c m with
           | Ok (a, m') => k a m'
           | Throw e => Throw e
           end.

Definition throw {A} (e : Exn) : M A := fun _ => Throw e.

Notation "x <- c ;; k" := (bind c (fun x => k))
  (at level 61, c at next level, right associativity).
Notation "c ;;; k" := (bind c (fun _ => k))
  (at level 61, right associativity).

(** [importMap.get(key)] *)
Definition importMap_get (key : string) : M (option TypeImport) :=
  fun m => Ok (map_get key m, m).

(** [importMap.set(key, value)] *)
Definition importMap_set (key : string) (value : TypeImport) : M unit :=
  fun m => Ok (tt, map_set key value m).

(** [impo.referenced = true] for the record object stored under [key]. *)
Definition mark_referenced (key : string) (impo : TypeImport) : M unit :=
  importMap_set key (set_referenced impo).

(** The value of a computation, without its final state. *)
Definition evalM {A} (c : M A) (m : ImportMap) : result A :=
  match c m with
  | Ok (a, _) => Ok a
  | Throw e => Throw e
  end.

(** ** Declarations *)

(** The object [meta] built for one parameter: its name [n], its type
    descriptor [t], and the flag string [f], a field that may be absent. *)
Record ParamMeta : Type := {
  n : string;
  t : Expression;
  f : option string
}.

(** The values handed to [metadataDecorator]: a flag string, a node wrapped
    by [literalNode] as [{ $__isTSNode: true, node }], an array of such, or
    the array of the serialized parameter objects.
    Modelled from the spec: [serialize] of [./serialize], which is not among
    the sources, turns a plain value into an expression that constructs it;
    the expression is kept as the value it is given. *)
Inductive MetadataValue : Type :=
| FlagString (s : string)
| literalNode (node : Expression)
| literalNodes (nodes : list Expression)
| serializedParams (metas : list ParamMeta).

(** A decorator is either one the declaration already had or one made by
    [metadataDecorator].
    Modelled from the spec: [metadataDecorator] of [./metadata-decorator],
    which is not among the sources, is the attachment primitive; the
    decorator it makes is kept as the key and the value it is given. *)
Inductive Decorator : Type :=
| UserDecorator (text : string)
| metadataDecorator (key : string) (value : MetadataValue).

Record ParameterDeclaration : Type := {
  param_modifiers : ModifiersArray;
  param_name : string;
  param_questionToken : bool;
  param_type : option TypeNode
}.

Record PropertyDeclaration : Type := {
  property_decorators : list Decorator;
  property_modifiers : ModifiersArray;
  property_name : string;
  property_type : option TypeNode
}.

Record MethodDeclaration : Type := {
  method_decorators : list Decorator;
  method_modifiers : ModifiersArray;
  method_name : string;
  method_parameters : list ParameterDeclaration;
  method_type : option TypeNode
}.

Record ConstructorDeclaration : Type := {
  constructor_parameters : list ParameterDeclaration
}.

(** The tree below a declaration.  The visitor ends on
    [ts.visitEachChild(node, visitor, context)] for every node, so it
    reaches each declaration of a module, however deep it lies: a class
    declared in a function body, the members of a class expression, the
    methods of an object literal.  A declaration therefore carries, next to
    what the extractors read, its [children]: the child nodes in which a
    declaration can occur, in the order [ts.visitEachChild] visits them
    (the expressions of its decorators, a computed name, the initializers
    of its parameters, its initializer or body).  Modifiers, names and type
    nodes hold no declaration. *)
Inductive ClassElement_ (N : Type) : Type :=
| PropertyMember (p : PropertyDeclaration) (children : list N)
| MethodMember (m : MethodDeclaration) (children : list N)
| ConstructorMember (c : ConstructorDeclaration) (children : list N)
| OtherMember (text : string) (children : list N).

Arguments PropertyMember {N} p children.
Arguments MethodMember {N} m children.
Arguments ConstructorMember {N} c children.
Arguments OtherMember {N} text children.

(** [class_children] are the children visited before the members: the
    expressions of the decorators and of the heritage clauses. *)
Record ClassDeclaration_ (N : Type) : Type := {
  class_decorators : list Decorator;
  class_modifiers : ModifiersArray;
  class_name : string;
  class_children : list N;
  members : list (ClassElement_ N)
}.

Arguments Build_ClassDeclaration_ {N} _ _ _ _ _.
Arguments class_decorators {N} _.
Arguments class_modifiers {N} _.
Arguments class_name {N} _.
Arguments class_children {N} _.
Arguments members {N} _.

(** The nodes below a statement: a class declaration; a node that has
    members (a class expression, for which [ts.isClassDeclaration] is
    false, or an object literal, whose methods are method declarations),
    with the children visited before them; and any other node with its
    children.  An import declaration is a statement of a module or of a
    namespace body and does not occur here. *)
Inductive Node : Type :=
| ClassNode (c : ClassDeclaration_ Node)
| MembersNode (text : string) (children : list Node)
    (members : list (ClassElement_ Node))
| OtherNode (text : string) (children : list Node).

Definition ClassElement : Type := ClassElement_ Node.
Definition ClassDeclaration : Type := ClassDeclaration_ Node.

(** The children of a member. *)
Definition memberChildren {N : Type} (node : ClassElement_ N) : list N :=
  match node with
  | PropertyMember _ children
  | MethodMember _ children
  | ConstructorMember _ children
  | OtherMember _ children => children
  end.

(** The statements of a module.  [Container] is a statement whose children
    are statements of a module again (a namespace body); [OtherStatement]
    is any other statement, with its children.
    Modelled from the spec: [rtHelper] of [./rt-helper], which is not among
    the sources, makes the runtime support declaration injected at the top
    of every module; it is kept as the opaque statement [RtHelper], in
    which the visitor finds no declaration. *)
Inductive Statement : Type :=
| ImportStatement (d : ImportDeclaration)
| ClassStatement (c : ClassDeclaration)
| RtHelper
| Container (body : list Statement)
| OtherStatement (text : string) (children : list Node).

Record SourceFile : Type := {
  statements : list Statement
}.

(** ** The host compiler *)

Inductive ModuleKind : Type :=
| ModuleNone | CommonJS | AMD | UMD | System | ES2015 | ES2020 | ESNext.

Record CompilerOptions : Type := {
  emitDecoratorMetadata : option bool;
  module : option ModuleKind
}.

(** A checked type; [flags] is a bit set of [ts.TypeFlags]. *)
Record TsType : Type := {
  flags : Z
}.

(** [getReturnType m] is
    [getTypeChecker().getSignatureFromDeclaration(m).getReturnType()]. *)
Record Program : Type := {
  compilerOptions : CompilerOptions;
  getReturnType : MethodDeclaration -> TsType
}.

Record TransformationContext : Type := {
  context_compilerOptions : CompilerOptions
}.

(** The members of [ts.TypeFlags] the transformer tests. *)
Module TypeFlags.
Definition String : Z := 4.
Definition Number : Z := 8.
Definition Boolean : Z := 16.
Definition BigInt : Z := 64.
Definition Void : Z := 16384.
Definition Object : Z := 524288.
End TypeFlags.

(** ** flags.ts and the transformer *)

Section Flags.

(** The flag codes exported by [../common/flags], which is not among the
    sources. *)
Variables F_READONLY F_ABSTRACT F_PUBLIC F_PRIVATE F_PROTECTED : string.
Variables F_PROPERTY F_METHOD F_CLASS F_OPTIONAL : string.

(** [modifiers.some(x => x.kind === k)] *)
Definition some_kind (k : SyntaxKind) (modifiers : list Modifier) : bool :=
  existsb (fun x => kind_is (kind x) k) modifiers.

Definition getVisibility (modifiers : ModifiersArray) : string :=
  match modifiers with
  | Some modifiers =>
      if some_kind PublicKeyword modifiers then F_PUBLIC
      else if some_kind PrivateKeyword modifiers then F_PRIVATE
      else if some_kind ProtectedKeyword modifiers then F_PROTECTED
      else F_PUBLIC
  | None => F_PUBLIC
  end.

Definition isReadOnly (modifiers : ModifiersArray) : string :=
  match modifiers with
  | None => ""
  | Some modifiers =>
      if some_kind ReadonlyKeyword modifiers then F_READONLY else ""
  end.

Definition isAbstract (modifiers : ModifiersArray) : string :=
  match modifiers with
  | None => ""
  | Some modifiers =>
      if some_kind AbstractKeyword modifiers then F_ABSTRACT else ""
  end.

(** *** The closures of one transformer instance *)

Section RttiTransformer.

Variable program : Program.
Variable emitStandardMetadata : option bool.
Variable context : TransformationContext.

Definition isCommonJS : bool :=
  match module (context_compilerOptions context) with
  | Some CommonJS => true
  | _ => false
  end.

Definition assureTypeAvailable (entityName : EntityName) : M string :=
  let rootName := getRootNameOfEntityName entityName in
  impo <- importMap_get rootName ;;
  match impo with
  | Some impo =>
      mark_referenced rootName impo ;;;
      ret (localName impo)
  | None => ret rootName
  end.

(** The parameter [propAccess] is declared as a property access or an
    identifier; the last case is outside that type and is never reached
    from [serializeTypeRef]. *)
Fixpoint propertyPrepend (expr propAccess : Expression) : result Expression :=
  match propAccess with
  | Identifier text => Ok (PropertyAccessExpression expr text)
  | PropertyAccessExpression inner name =>
      match inner with
      | PropertyAccessExpression _ _ =>
          match propertyPrepend expr inner with
          | Ok e => Ok (PropertyAccessExpression e name)
          | Throw e => Throw e
          end
      | _ => Throw (Error "Unsupported expression type 'PropertyAccessExpression'")
      end
  | _ => Throw TypeError
  end.

(** A result that does not touch the import map, as a computation. *)
Definition lift {A} (r : result A) : M A :=
  fun m => match r with Ok a => Ok (a, m) | Throw e => Throw e end.

(** [ts.isIdentifier(typeName) ? createIdentifier(root)
                               : cloneEntityNameAsExpr(typeName, root)] *)
Definition nameAsExpr (typeName : EntityName) (root : string) : Expression :=
  match typeName with
  | NameIdentifier _ => Identifier root
  | QualifiedName _ _ => cloneEntityNameAsExpr typeName root
  end.

(** The [ts.isTypeReferenceNode] branch of [serializeTypeRef]. *)
Definition serializeTypeReference (typeName : EntityName) : M Expression :=
  if isCommonJS then
    let origName := getRootNameOfEntityName typeName in
    impo <- importMap_get origName ;;
    let expr := nameAsExpr typeName origName in
    match impo with
    | Some impo =>
        mark_referenced origName impo ;;;
        if negb (isNamespace impo) then
          lift (propertyPrepend
                  (CallExpression (Identifier "require")
                     [StringLiteral (modulePath impo)])
                  expr)
        else
          rootName <- assureTypeAvailable typeName ;;
          ret (nameAsExpr typeName rootName)
    | None => ret expr
    end
  else
    rootName <- assureTypeAvailable typeName ;;
    ret (nameAsExpr typeName rootName).

(** [serializeTypeRef] on a node that is present. *)
Fixpoint serializeTypeNode (typeNode : TypeNode) (extended : bool)
  : M Expression :=
  match typeNode with
  | TypeReferenceNode typeName => serializeTypeReference typeName
  | OtherTypeNode StringKeyword => ret (Identifier "String")
  | OtherTypeNode NumberKeyword => ret (Identifier "Number")
  | OtherTypeNode BooleanKeyword => ret (Identifier "Boolean")
  | OtherTypeNode BigIntKeyword => ret (Identifier "BigInt")
  | ArrayTypeNode elementType =>
      if extended then
        e <- serializeTypeNode elementType true ;;
        ret (ArrayLiteralExpression [e])
      else ret (Identifier "Array")
  | OtherTypeNode k =>
      if extended then
        throw (Error ("Failed to serializeTypeRef for kind "
                        ++ SyntaxKind_name k ++ "!")%string)
      else ret (Identifier "Object")
  end.

(** [serializeTypeRef]: an absent node gives [void 0]. *)
Definition serializeTypeRef (typeNode : option TypeNode) (extended : bool)
  : M Expression :=
  match typeNode with
  | None => ret VoidZero
  | Some typeNode => serializeTypeNode typeNode extended
  end.

(** [typeToTypeRef]: [(type.flags & flag) !== 0], flag after flag. *)
Definition typeToTypeRef (type : TsType) : Expression :=
  if negb (Z.land (flags type) TypeFlags.String =? 0)%Z then Identifier "String"
  else if negb (Z.land (flags type) TypeFlags.Number =? 0)%Z then Identifier "Number"
  else if negb (Z.land (flags type) TypeFlags.Boolean =? 0)%Z then Identifier "Boolean"
  else if negb (Z.land (flags type) TypeFlags.Void =? 0)%Z then VoidZero
  else if negb (Z.land (flags type) TypeFlags.BigInt =? 0)%Z then Identifier "BigInt"
  else if negb (Z.land (flags type) TypeFlags.Object =? 0)%Z then Identifier "Object"
  else Identifier "Object".

Definition extractTypeMetadata (type : option TypeNode) (standardName : string)
  : M (list Decorator) :=
  e <- serializeTypeRef type true ;;
  let decs := [metadataDecorator "rt:t" (literalNode (forwardRef e))] in
  if truthy emitStandardMetadata then
    c <- serializeTypeRef type false ;;
    ret (decs ++ [metadataDecorator ("design:" ++ standardName)%string (literalNode c)])
  else ret decs.

(** The flag codes pushed for one modifier of a parameter. *)
Definition modifierFlags (modifier : Modifier) : list string :=
  (if kind_is (kind modifier) ReadonlyKeyword then [F_READONLY] else [])
  ++ (if kind_is (kind modifier) PrivateKeyword then [F_PRIVATE] else [])
  ++ (if kind_is (kind modifier) PublicKeyword then [F_PUBLIC] else [])
  ++ (if kind_is (kind modifier) ProtectedKeyword then [F_PROTECTED] else []).

(** The array [f] built for one parameter. *)
Definition paramFlags (param : ParameterDeclaration) : list string :=
  match param_modifiers param with
  | Some modifiers => flat_map modifierFlags modifiers
  | None => []
  end
  ++ (if param_questionToken param then [F_OPTIONAL] else []).

(** One turn of the loop of [extractParamsMetadata]: the expression pushed
    on [standardParamTypes] and the object pushed on [serializedParamMeta]. *)
Definition extractParam (param : ParameterDeclaration)
  : M (Expression * ParamMeta) :=
  expr <- serializeTypeRef (param_type param) false ;;
  let fl := paramFlags param in
  ty <- serializeTypeRef (param_type param) true ;;
  ret (expr,
       {| n := param_name param;
          t := forwardRef ty;
          f := if (0 <? length fl)%nat then Some (String.concat "" fl)
               else None |}).

(** A loop that pushes one result per element, in order; also
    [ts.visitEachChild] over a list of children. *)
Fixpoint mapM {A B} (g : A -> M B) (l : list A) : M (list B) :=
  match l with
  | [] => ret []
  | x :: xs =>
      y <- g x ;;
      ys <- mapM g xs ;;
      ret (y :: ys)
  end.

Definition extractParamsMetadata (parameters : list ParameterDeclaration)
  : M (list Decorator) :=
  metas <- mapM extractParam parameters ;;
  let standardParamTypes := map fst metas in
  let serializedParamMeta := map snd metas in
  let decs := [metadataDecorator "rt:p" (serializedParams serializedParamMeta)] in
  if truthy emitStandardMetadata then
    ret (decs ++ [metadataDecorator "design:paramtypes"
                    (literalNodes standardParamTypes)])
  else ret decs.

(** [klass.members.find(x => ts.isConstructorDeclaration(x))] *)
Fixpoint find_constructor (members : list ClassElement)
  : option ConstructorDeclaration :=
  match members with
  | [] => None
  | ConstructorMember c _ :: _ => Some c
  | _ :: rest => find_constructor rest
  end.

Definition extractClassMetadata (klass : ClassDeclaration)
  : M (list Decorator) :=
  decs <- match find_constructor (members klass) with
          | Some constructor =>
              extractParamsMetadata (constructor_parameters constructor)
          | None => ret []
          end ;;
  ret (decs ++ [metadataDecorator "rt:f"
                  (FlagString (F_CLASS ++ getVisibility (class_modifiers klass)
                                 ++ isAbstract (class_modifiers klass))%string)]).

Definition extractPropertyMetadata (property : PropertyDeclaration)
  : M (list Decorator) :=
  decs <- extractTypeMetadata (property_type property) "type" ;;
  ret (decs ++ [metadataDecorator "rt:f"
                  (FlagString (F_PROPERTY
                                 ++ getVisibility (property_modifiers property)
                                 ++ isReadOnly (property_modifiers property))%string)]).

Definition extractMethodMetadata (method : MethodDeclaration)
  : M (list Decorator) :=
  let decs0 :=
    if truthy emitStandardMetadata
    then [metadataDecorator "design:type" (literalNode (Identifier "Function"))]
    else [] in
  params <- extractParamsMetadata (method_parameters method) ;;
  let decs1 :=
    decs0 ++ params
    ++ [metadataDecorator "rt:f"
          (FlagString (F_METHOD ++ getVisibility (method_modifiers method)
                         ++ isAbstract (method_modifiers method))%string)] in
  match method_type method with
  | Some ty =>
      serializeTypeRef (Some ty) true ;;;
      tdecs <- extractTypeMetadata (Some ty) "returntype" ;;
      ret (decs1 ++ tdecs)
  | None =>
      let returnT := typeToTypeRef (getReturnType program method) in
      let decs2 :=
        decs1 ++ [metadataDecorator "rt:t" (literalNode (forwardRef returnT))] in
      if truthy emitStandardMetadata then
        ret (decs2 ++ [metadataDecorator "design:returntype" (literalNode VoidZero)])
      else ret decs2
  end.

(** *** The visitor *)

(** The record made for one element of a named-imports clause. *)
Definition namedImportRecord (node : ImportDeclaration)
  (binding : ImportSpecifier) : TypeImport :=
  {| name := spec_name binding;
     localName :=
       (match propertyName binding with
        | Some text => text
        | None => spec_name binding
        end ++ "Φ")%string;
     refName := spec_name binding;
     modulePath := moduleSpecifier node;
     isNamespace := false;
     referenced := None;
     importDeclaration := node |}.

(** The record made for a namespace import. *)
Definition namespaceImportRecord (node : ImportDeclaration)
  (text : string) : TypeImport :=
  {| name := text;
     localName := (text ++ "Φ")%string;
     modulePath := moduleSpecifier node;
     refName := text;
     isNamespace := true;
     referenced := None;
     importDeclaration := node |}.

(** The loop over [bindings.elements]. *)
Fixpoint setNamedImports (node : ImportDeclaration)
  (elements : list ImportSpecifier) : M unit :=
  match elements with
  | [] => ret tt
  | binding :: rest =>
      importMap_set (spec_name binding) (namedImportRecord node binding) ;;;
      setNamedImports node rest
  end.

(** The [ts.isImportDeclaration] branch of the visitor.  The type guards
    of the compiler API read [node.kind]: [ts.isNamedImports(bindings)]
    on the [undefined] bindings of a clause that has only a default name
    raises a [TypeError]. *)
Definition visitImportDeclaration (node : ImportDeclaration) : M unit :=
  match importClause node with
  | Some clause =>
      match namedBindings clause with
      | None => throw TypeError
      | Some (NamedImports elements) => setNamedImports node elements
      | Some (NamespaceImport text) =>
          importMap_set text (namespaceImportRecord node text)
      end
  | None => ret tt
  end.

(** The visitor on a member, given the visitor on the nodes below it: a
    property or a method declaration is decorated, wherever it stands, and
    then the children of every member are visited.
    Modelled from the spec: the decorators just attached are among the
    children [ts.visitEachChild] visits; made by [metadataDecorator], they
    hold no declaration. *)
Definition visitClassElementWith (visit : Node -> M Node)
  (node : ClassElement) : M ClassElement :=
  match node with
  | PropertyMember p children =>
      decs <- extractPropertyMetadata p ;;
      children' <- mapM visit children ;;
      ret (PropertyMember
             {| property_decorators := property_decorators p ++ decs;
                property_modifiers := property_modifiers p;
                property_name := property_name p;
                property_type := property_type p |}
             children')
  | MethodMember m children =>
      decs <- extractMethodMetadata m ;;
      children' <- mapM visit children ;;
      ret (MethodMember
             {| method_decorators := method_decorators m ++ decs;
                method_modifiers := method_modifiers m;
                method_name := method_name m;
                method_parameters := method_parameters m;
                method_type := method_type m |}
             children')
  | ConstructorMember c children =>
      children' <- mapM visit children ;;
      ret (ConstructorMember c children')
  | OtherMember text children =>
      children' <- mapM visit children ;;
      ret (OtherMember text children')
  end.

(** The visitor on a class declaration: it is decorated, then its children
    are visited, the members last. *)
Definition visitClassDeclarationWith (visit : Node -> M Node)
  (node : ClassDeclaration) : M ClassDeclaration :=
  decs <- extractClassMetadata node ;;
  children' <- mapM visit (class_children node) ;;
  members' <- mapM (visitClassElementWith visit) (members node) ;;
  ret {| class_decorators := class_decorators node ++ decs;
         class_modifiers := class_modifiers node;
         class_name := class_name node;
         class_children := children';
         members := members' |}.

(** The visitor on the nodes below a statement. *)
Fixpoint visitNode (node : Node) : M Node :=
  match node with
  | ClassNode c =>
      c' <- visitClassDeclarationWith visitNode c ;;
      ret (ClassNode c')
  | MembersNode text children members =>
      children' <- mapM visitNode children ;;
      members' <- mapM (visitClassElementWith visitNode) members ;;
      ret (MembersNode text children' members')
  | OtherNode text children =>
      children' <- mapM visitNode children ;;
      ret (OtherNode text children')
  end.

Definition visitClassElement : ClassElement -> M ClassElement :=
  visitClassElementWith visitNode.

Definition visitClassDeclaration : ClassDeclaration -> M ClassDeclaration :=
  visitClassDeclarationWith visitNode.

(** The visitor on the statements of a module. *)
Fixpoint visitor (node : Statement) : M Statement :=
  match node with
  | ImportStatement d =>
      visitImportDeclaration d ;;;
      ret node
  | ClassStatement c =>
      c' <- visitClassDeclaration c ;;
      ret (ClassStatement c')
  | Container body =>
      body' <- mapM visitor body ;;
      ret (Container body')
  | RtHelper => ret node
  | OtherStatement text children =>
      children' <- mapM visitNode children ;;
      ret (OtherStatement text children')
  end.

(** *** Import synthesis *)

(** [statements.indexOf(d)]: the first index holding the node [d], or -1. *)
Fixpoint indexOf (statements : list Statement) (d : ImportDeclaration) : Z :=
  match statements with
  | [] => (-1)%Z
  | ImportStatement d' :: rest =>
      if ImportDeclaration_eq_dec d' d then 0%Z
      else let i := indexOf rest d in
           if (i <? 0)%Z then (-1)%Z else (i + 1)%Z
  | _ :: rest =>
      let i := indexOf rest d in
      if (i <? 0)%Z then (-1)%Z else (i + 1)%Z
  end.

(** [statements.splice(start, 0, item)] *)
Definition splice (statements : list Statement) (start : Z) (item : Statement)
  : list Statement :=
  firstn (Z.to_nat start) statements ++ item :: skipn (Z.to_nat start) statements.

(** The import declaration [ownedImpo] made for a record. *)
Definition ownedImpo (impo : TypeImport) : ImportDeclaration :=
  {| pos := (-1)%Z;
     importClause :=
       Some {| clause_name := None;
               namedBindings :=
                 Some (if isNamespace impo
                       then NamespaceImport (localName impo)
                       else NamedImports
                              [{| propertyName := Some (refName impo);
                                  spec_name := localName impo |}]) |};
     moduleSpecifier := moduleSpecifier (importDeclaration impo) |}.

(** One turn of the loop of [generateImports]. *)
Definition generateImport (statements : list Statement) (impo : TypeImport)
  : list Statement :=
  if negb (truthy (referenced impo)) then statements
  else if isCommonJS && negb (isNamespace impo) then statements
  else
    let impoIndex := indexOf statements (importDeclaration impo) in
    if (impoIndex >=? 0)%Z
    then splice statements impoIndex (ImportStatement (ownedImpo impo))
    else splice statements 0 (ImportStatement (ownedImpo impo)).

Definition generateImports (importMap : ImportMap)
  (statements : list Statement) : list Statement :=
  fold_left generateImport (map_values importMap) statements.

(** *** Processing one source file *)

Definition rttiTransformer (sourceFile : SourceFile) : result SourceFile :=
  let sourceFile1 := {| statements := RtHelper :: statements sourceFile |} in
  match mapM visitor (statements sourceFile1) [] with
  | Ok (visited, importMap) =>
      Ok {| statements := generateImports importMap visited |}
  | Throw e => Throw e
  end.

(** ** Specifications *)

(** The shapes [serializeTypeRef] has a case for: an absent node, a named
    type reference, the string, number, boolean and big-integer keywords,
    and an array type. *)
Definition recognizedShape (typeNode : option TypeNode) : bool :=
  match typeNode with
  | None => true
  | Some (TypeReferenceNode _) => true
  | Some (ArrayTypeNode _) => true
  | Some (OtherTypeNode k) =>
      kind_is k StringKeyword || kind_is k NumberKeyword
      || kind_is k BooleanKeyword || kind_is k BigIntKeyword
  end.

(** The visibility the spec asks for: the first of public, private and
    protected that the modifier list holds, and public when it holds none
    or is absent. *)
Inductive resolvesTo : ModifiersArray -> string -> Prop :=
| resolves_public modifiers :
    In PublicKeyword modifiers ->
    resolvesTo (Some modifiers) F_PUBLIC
| resolves_private modifiers :
    ~ In PublicKeyword modifiers ->
    In PrivateKeyword modifiers ->
    resolvesTo (Some modifiers) F_PRIVATE
| resolves_protected modifiers :
    ~ In PublicKeyword modifiers ->
    ~ In PrivateKeyword modifiers ->
    In ProtectedKeyword modifiers ->
    resolvesTo (Some modifiers) F_PROTECTED
| resolves_default modifiers :
    ~ In PublicKeyword modifiers ->
    ~ In PrivateKeyword modifiers ->
    ~ In ProtectedKeyword modifiers ->
    resolvesTo (Some modifiers) F_PUBLIC
| resolves_absent :
    resolvesTo None F_PUBLIC.

(** Serialization changes the import map only by setting [referenced] on
    records.  [erase] forgets the mark of a record. *)
Definition erase (impo : TypeImport) : TypeImport :=
  {| importDeclaration := importDeclaration impo;
     refName := refName impo;
     modulePath := modulePath impo;
     isNamespace := isNamespace impo;
     referenced := None;
     name := name impo;
     localName := localName impo |}.

(** The map with the marks of all its records forgotten. *)
Definition eraseMap (m : ImportMap) : ImportMap :=
  map (fun kv => (fst kv, erase (snd kv))) m.

(** Two maps hold the same imports when they agree up to the marks. *)
Definition sameImports (m1 m2 : ImportMap) : Prop :=
  eraseMap m1 = eraseMap m2.

(** A computation that at most marks records, and whose value does not
    depend on the marks. *)
Definition marksOnly {A} (c : M A) : Prop :=
  (forall m a m', c m = Ok (a, m') -> sameImports m' m)
  /\ (forall m1 m2, sameImports m1 m2 -> evalM c m1 = evalM c m2).

(** The code the spec gives a parameter modifier: one for each of
    readonly, private, public and protected, none for any other. *)
Definition modifierCode (k : SyntaxKind) : option string :=
  match k with
  | ReadonlyKeyword => Some F_READONLY
  | PrivateKeyword => Some F_PRIVATE
  | PublicKeyword => Some F_PUBLIC
  | ProtectedKeyword => Some F_PROTECTED
  | _ => None
  end.

(** The codes the spec expects in a parameter's flag string: those of its
    modifiers, in the order they are written, then the optional marker. *)
Definition expectedCodes (param : ParameterDeclaration) : list string :=
  flat_map (fun k => match modifierCode k with Some c => [c] | None => [] end)
    (match param_modifiers param with Some ms => ms | None => [] end)
  ++ (if param_questionToken param then [F_OPTIONAL] else []).

(** A parameter has something to flag: a readonly or visibility modifier,
    or the optional marker. *)
Definition flagged (param : ParameterDeclaration) : bool :=
  param_questionToken param
  || existsb (fun k => match modifierCode k with Some _ => true | None => false end)
       (match param_modifiers param with Some ms => ms | None => [] end).

(** What the spec asks of the descriptor [d] of the parameter [p]: the
    literal name, the forward reference to the extended form of the type,
    and a flag field that is there exactly when there is something to
    flag. *)
Definition describes (importMap : ImportMap) (p : ParameterDeclaration)
  (d : ParamMeta) : Prop :=
  n d = param_name p
  /\ (exists e, evalM (serializeTypeRef (param_type p) true) importMap = Ok e
                /\ t d = forwardRef e)
  /\ f d = if flagged p then Some (String.concat "" (expectedCodes p)) else None.

(** The checked-type table of the spec: the flag tested and the reference
    it yields, in the order of the tests. *)
Definition checkedTypeTable : list (Z * Expression) :=
  [ (TypeFlags.String, Identifier "String");
    (TypeFlags.Number, Identifier "Number");
    (TypeFlags.Boolean, Identifier "Boolean");
    (TypeFlags.Void, VoidZero);
    (TypeFlags.BigInt, Identifier "BigInt");
    (TypeFlags.Object, Identifier "Object") ].

(** The first entry of a table whose flag is set, and the generic
    [Object] reference when there is none. *)
Fixpoint lookupChecked (bits : Z) (table : list (Z * Expression))
  : Expression :=
  match table with
  | [] => Identifier "Object"
  | (flag, e) :: rest =>
      if (Z.land bits flag =? 0)%Z then lookupChecked bits rest else e
  end.

(** The names an import declaration binds in the module. *)
Definition boundNames (d : ImportDeclaration) : list string :=
  match importClause d with
  | None => []
  | Some clause =>
      match clause_name clause with Some x => [x] | None => [] end
      ++ match namedBindings clause with
         | None => []
         | Some (NamedImports elements) => map spec_name elements
         | Some (NamespaceImport text) => [text]
         end
  end.

(** How many import statements bind the name [x]. *)
Definition bindingCount (x : string) (statements : list Statement) : nat :=
  length (filter (fun s => match s with
                           | ImportStatement d =>
                               existsb (String.eqb x) (boundNames d)
                           | _ => false
                           end)
            statements).

(** The records the spec has import synthesis act on: the referenced ones,
    and under CommonJS only those of namespace imports. *)
Definition eligible (impo : TypeImport) : bool :=
  truthy (referenced impo) && negb (isCommonJS && negb (isNamespace impo)).

(** The import declaration a statement is, if it is one. *)
Definition importOf (s : Statement) : option ImportDeclaration :=
  match s with
  | ImportStatement d => Some d
  | _ => None
  end.

(** The eligible records whose alias is [x]. *)
Definition aliasRecords (x : string) (records : list TypeImport)
  : list TypeImport :=
  filter (fun impo => eligible impo && String.eqb x (localName impo)) records.

(** [insertedBefore d x before after]: [after] is [before] with [x] put
    immediately before the first occurrence of the import statement [d], or
    at the top when [d] is not among the statements. *)
Inductive insertedBefore (d : ImportDeclaration) (x : Statement)
  : list Statement -> list Statement -> Prop :=
| inserted_located pre post :
    ~ In (ImportStatement d) pre ->
    insertedBefore d x (pre ++ ImportStatement d :: post)
      (pre ++ x :: ImportStatement d :: post)
| inserted_top statements :
    ~ In (ImportStatement d) statements ->
    insertedBefore d x statements (x :: statements).

(** [synthesized records before after]: going through the records in
    order, each eligible one adds one import statement that binds the
    record's alias, and nothing else, to the module path of the record's
    original import statement, placed as [insertedBefore] says; the other
    records add nothing. *)
Inductive synthesized
  : list TypeImport -> list Statement -> list Statement -> Prop :=
| synthesized_done statements :
    synthesized [] statements statements
| synthesized_skip impo rest before after :
    eligible impo = false ->
    synthesized rest before after ->
    synthesized (impo :: rest) before after
| synthesized_insert impo rest d before inserted after :
    eligible impo = true ->
    moduleSpecifier d = moduleSpecifier (importDeclaration impo) ->
    boundNames d = [localName impo] ->
    insertedBefore (importDeclaration impo) (ImportStatement d) before inserted ->
    synthesized rest inserted after ->
    synthesized (impo :: rest) before after.

(** A computation that, run again from the state it left, returns the
    same value and leaves that state as it is. *)
Definition settles {A} (c : M A) : Prop :=
  forall m a m', c m = Ok (a, m') -> c m' = Ok (a, m').

(** [importedAs impo base]: the binding of the record's import declaration
    that binds the record's name imports [base]: the name before [as] when
    there is one, the bound name otherwise. *)
Definition importedAs (impo : TypeImport) (base : string) : Prop :=
  match importClause (importDeclaration impo) with
  | Some clause =>
      match namedBindings clause with
      | Some (NamedImports elements) =>
          isNamespace impo = false
          /\ exists binding,
               In binding elements
               /\ spec_name binding = name impo
               /\ base = match propertyName binding with
                         | Some text => text
                         | None => spec_name binding
                         end
      | Some (NamespaceImport text) =>
          isNamespace impo = true /\ text = name impo /\ base = text
      | None => False
      end
  | None => False
  end.

(** The record's alias is the imported name followed by the marker. *)
Definition markedAlias (impo : TypeImport) : Prop :=
  exists base, importedAs impo base /\ localName impo = (base ++ "Φ")%string.

(** Every record of the map has such an alias. *)
Definition aliasesMarked (m : ImportMap) : Prop :=
  Forall markedAlias (map_values m).

(** ** Properties of the flag encoder *)

Lemma kind_is_true (a b : SyntaxKind) : kind_is a b = true <-> a = b.
Proof.
  unfold kind_is. destruct (SyntaxKind_eq_dec a b); split; intros; congruence.
Qed.

Lemma some_kind_In (k : SyntaxKind) (modifiers : list Modifier) :
  some_kind k modifiers = true <-> In k modifiers.
Proof.
  unfold some_kind. rewrite existsb_exists. split.
  - intros [x [Hin Hk]]. apply kind_is_true in Hk. unfold kind in Hk.
    now subst.
  - intros Hin. exists k. split; [assumption | now apply kind_is_true].
Qed.

Lemma some_kind_not_In (k : SyntaxKind) (modifiers : list Modifier) :
  some_kind k modifiers = false <-> ~ In k modifiers.
Proof.
  rewrite <- some_kind_In. destruct (some_kind k modifiers); split; congruence.
Qed.

(** C2: for every modifier list, absent and empty ones included,
    [getVisibility] returns one visibility code, the one of the first match
    in the order public, private, protected, and the public code when the
    list holds no visibility modifier. *)
Theorem getVisibility_precedence (modifiers : ModifiersArray) :
  resolvesTo modifiers (getVisibility modifiers)
  /\ In (getVisibility modifiers) [F_PUBLIC; F_PRIVATE; F_PROTECTED].
Proof.
  destruct modifiers as [modifiers|]; simpl.
  - destruct (some_kind PublicKeyword modifiers) eqn:Hpub.
    { split; [constructor; now apply some_kind_In | now left]. }
    destruct (some_kind PrivateKeyword modifiers) eqn:Hpriv.
    { split; [| right; now left].
      apply resolves_private;
        [now apply some_kind_not_In | now apply some_kind_In]. }
    destruct (some_kind ProtectedKeyword modifiers) eqn:Hprot.
    { split; [| right; right; now left].
      apply resolves_protected;
        [now apply some_kind_not_In | now apply some_kind_not_In
        | now apply some_kind_In]. }
    split; [| now left].
    apply resolves_default; now apply some_kind_not_In.
  - split; [constructor | now left].
Qed.

(** ** Properties of the serializer *)

(** C1: a type node of none of the recognized shapes makes
    [serializeTypeRef] throw, in extended mode, the error that names the
    node's kind, and return, in coarse mode, the identifier [Object]
    without touching the import map. *)
Theorem serializeTypeRef_unrecognized (typeNode : option TypeNode)
  (importMap : ImportMap) :
  recognizedShape typeNode = false ->
  exists k,
    typeNode = Some (OtherTypeNode k)
    /\ serializeTypeRef typeNode true importMap
       = Throw (Error ("Failed to serializeTypeRef for kind "
                         ++ SyntaxKind_name k ++ "!")%string)
    /\ serializeTypeRef typeNode false importMap
       = Ok (Identifier "Object", importMap).
Proof.
  destruct typeNode as [[typeName | elementType | k]|]; simpl;
    try discriminate.
  intros H. exists k. destruct k; simpl in H; try discriminate;
    repeat split; reflexivity.
Qed.

Lemma map_get_set_same (k : string) (v : TypeImport) (m : ImportMap) :
  map_get k (map_set k v m) = Some v.
Proof.
  induction m as [|[k' v'] m IH]; simpl.
  - now rewrite String.eqb_refl.
  - destruct (String.eqb k k') eqn:E; simpl.
    + now rewrite String.eqb_refl.
    + now rewrite E.
Qed.

Lemma map_get_set_other (k k' : string) (v : TypeImport) (m : ImportMap) :
  k <> k' -> map_get k' (map_set k v m) = map_get k' m.
Proof.
  intros Hne. induction m as [|[k0 v0] m IH]; simpl.
  - destruct (String.eqb k' k) eqn:E; [|reflexivity].
    apply String.eqb_eq in E. congruence.
  - destruct (String.eqb k k0) eqn:E; simpl.
    + apply String.eqb_eq in E. subst k0.
      destruct (String.eqb k' k) eqn:E'; [|reflexivity].
      apply String.eqb_eq in E'. congruence.
    + destruct (String.eqb k' k0); [reflexivity | exact IH].
Qed.

Lemma map_set_set (k : string) (v v' : TypeImport) (m : ImportMap) :
  map_set k v (map_set k v' m) = map_set k v m.
Proof.
  induction m as [|[k0 v0] m IH]; simpl.
  - now rewrite String.eqb_refl.
  - destruct (String.eqb k k0) eqn:E; simpl.
    + now rewrite String.eqb_refl.
    + rewrite E. now rewrite IH.
Qed.

Lemma erase_set_referenced (impo : TypeImport) :
  erase (set_referenced impo) = erase impo.
Proof. reflexivity. Qed.

Lemma set_referenced_idempotent (impo : TypeImport) :
  set_referenced (set_referenced impo) = set_referenced impo.
Proof. reflexivity. Qed.

Lemma sameImports_refl (m : ImportMap) : sameImports m m.
Proof. reflexivity. Qed.

Lemma sameImports_sym (m1 m2 : ImportMap) :
  sameImports m1 m2 -> sameImports m2 m1.
Proof. unfold sameImports. congruence. Qed.

Lemma sameImports_trans (m1 m2 m3 : ImportMap) :
  sameImports m1 m2 -> sameImports m2 m3 -> sameImports m1 m3.
Proof. unfold sameImports. congruence. Qed.

Lemma sameImports_mark (k : string) (v : TypeImport) (m : ImportMap) :
  map_get k m = Some v ->
  sameImports (map_set k (set_referenced v) m) m.
Proof.
  unfold sameImports. induction m as [|[k0 v0] m IH]; simpl; [discriminate|].
  destruct (String.eqb k k0) eqn:E; simpl.
  - intros [= ->]. apply String.eqb_eq in E. now subst.
  - intros H. now rewrite IH.
Qed.

Lemma sameImports_get (k : string) (m1 m2 : ImportMap) :
  sameImports m1 m2 ->
  option_map erase (map_get k m1) = option_map erase (map_get k m2).
Proof.
  unfold sameImports. revert m2.
  induction m1 as [|[k1 v1] m1 IH]; intros [|[k2 v2] m2]; simpl;
    try discriminate; [reflexivity|].
  intros H.
  pose proof (f_equal (fun l => option_map fst (hd_error l)) H) as Hk.
  pose proof (f_equal (fun l => option_map snd (hd_error l)) H) as Hv.
  pose proof (f_equal (@tl _) H) as Hrest.
  simpl in Hk, Hv, Hrest.
  assert (k1 = k2) by congruence. subst k2.
  assert (Hv' : erase v1 = erase v2) by congruence. clear Hv H Hk.
  rename Hv' into Hv. destruct (String.eqb k k1); simpl.
  - now rewrite Hv.
  - now apply IH.
Qed.

Lemma option_map_erase_fields (a b : option TypeImport) :
  option_map erase a = option_map erase b ->
  match a, b with
  | Some x, Some y =>
      localName x = localName y /\ isNamespace x = isNamespace y
      /\ modulePath x = modulePath y
      /\ importDeclaration x = importDeclaration y
  | None, None => True
  | _, _ => False
  end.
Proof.
  destruct a as [x|], b as [y|]; simpl; try discriminate; [|trivial].
  intros H. assert (E : erase x = erase y) by congruence.
  repeat split;
    [ exact (f_equal localName E) | exact (f_equal isNamespace E)
    | exact (f_equal modulePath E) | exact (f_equal importDeclaration E) ].
Qed.

Lemma evalM_Ok {A} (c : M A) (m : ImportMap) (a : A) :
  evalM c m = Ok a <-> exists m', c m = Ok (a, m').
Proof.
  unfold evalM. destruct (c m) as [[a' m']|e]; split.
  - intros [= ->]. now exists m'.
  - intros [m'' [= -> _]]. reflexivity.
  - discriminate.
  - intros [m'' H]. discriminate.
Qed.

Lemma marksOnly_ret {A} (a : A) : marksOnly (ret a).
Proof.
  split.
  - intros m a' m' [= _ ->]. apply sameImports_refl.
  - reflexivity.
Qed.

Lemma marksOnly_throw {A} (e : Exn) : marksOnly (@throw A e).
Proof. split; [discriminate | reflexivity]. Qed.

Lemma marksOnly_lift {A} (r : result A) : marksOnly (lift r).
Proof.
  split.
  - intros m a m'. unfold lift. destruct r; [|discriminate].
    intros [= _ ->]. apply sameImports_refl.
  - intros m1 m2 _. unfold evalM, lift. now destruct r.
Qed.

Lemma marksOnly_bind {A B} (c : M A) (k : A -> M B) :
  marksOnly c -> (forall a, marksOnly (k a)) -> marksOnly (bind c k).
Proof.
  intros [Hc1 Hc2] Hk. split.
  - intros m b m''. unfold bind. destruct (c m) as [[a m']|e] eqn:E;
      [|discriminate].
    intros H. destruct (Hk a) as [Hk1 _].
    eapply sameImports_trans; [eapply Hk1; eassumption | eapply Hc1; eassumption].
  - intros m1 m2 Hs. pose proof (Hc2 m1 m2 Hs) as Hv.
    unfold evalM, bind in *.
    destruct (c m1) as [[a1 m1']|e1] eqn:E1, (c m2) as [[a2 m2']|e2] eqn:E2;
      try discriminate; [|now injection Hv as ->].
    injection Hv as ->. destruct (Hk a2) as [_ Hk2].
    apply Hk2. eapply sameImports_trans; [eapply Hc1; eassumption|].
    eapply sameImports_trans; [eassumption|].
    apply sameImports_sym. eapply Hc1; eassumption.
Qed.

Lemma marksOnly_assureTypeAvailable (entityName : EntityName) :
  marksOnly (assureTypeAvailable entityName).
Proof.
  unfold assureTypeAvailable, bind, importMap_get, mark_referenced,
    importMap_set, ret. split.
  - intros m a m'.
    destruct (map_get (getRootNameOfEntityName entityName) m) eqn:E.
    + intros [= _ <-]. now apply sameImports_mark.
    + intros [= _ <-]. apply sameImports_refl.
  - intros m1 m2 Hs. unfold evalM.
    pose proof (option_map_erase_fields _ _
      (sameImports_get (getRootNameOfEntityName entityName) m1 m2 Hs)) as H.
    destruct (map_get (getRootNameOfEntityName entityName) m1),
      (map_get (getRootNameOfEntityName entityName) m2);
      try contradiction; [|reflexivity].
    destruct H as [-> _]. reflexivity.
Qed.

Lemma marksOnly_serializeTypeReference (typeName : EntityName) :
  marksOnly (serializeTypeReference typeName).
Proof.
  assert (Hns : marksOnly (rootName <- assureTypeAvailable typeName ;;
                           ret (nameAsExpr typeName rootName))).
  { apply marksOnly_bind;
      [apply marksOnly_assureTypeAvailable | intros; apply marksOnly_ret]. }
  unfold serializeTypeReference. destruct isCommonJS; [|exact Hns].
  set (origName := getRootNameOfEntityName typeName).
  set (ns := rootName <- assureTypeAvailable typeName ;;
             ret (nameAsExpr typeName rootName)) in *.
  destruct Hns as [Hns1 Hns2]. split.
  - intros m a m'. unfold bind at 1, importMap_get.
    destruct (map_get origName m) as [impo|] eqn:E.
    + unfold bind at 1, mark_referenced, importMap_set.
      destruct (negb (isNamespace impo)).
      * unfold lift. destruct (propertyPrepend _ _); [|discriminate].
        intros [= _ <-]. now apply sameImports_mark.
      * intros H. eapply sameImports_trans;
          [eapply Hns1; exact H | now apply sameImports_mark].
    + intros [= _ <-]. apply sameImports_refl.
  - intros m1 m2 Hs. unfold evalM. unfold bind at 1 3, importMap_get.
    pose proof (option_map_erase_fields _ _
                  (sameImports_get origName m1 m2 Hs)) as H.
    destruct (map_get origName m1) as [x|] eqn:E1,
      (map_get origName m2) as [y|] eqn:E2; try contradiction;
      [|reflexivity].
    destruct H as (Hl & Hn & Hp & _).
    unfold bind at 1 2, mark_referenced, importMap_set.
    rewrite Hn, Hp. destruct (negb (isNamespace y)).
    + unfold lift. now destruct (propertyPrepend _ _).
    + apply Hns2.
      eapply sameImports_trans; [now apply sameImports_mark|].
      eapply sameImports_trans; [exact Hs|].
      apply sameImports_sym. now apply sameImports_mark.
Qed.

Lemma marksOnly_serializeTypeNode (typeNode : TypeNode) (extended : bool) :
  marksOnly (serializeTypeNode typeNode extended).
Proof.
  revert extended.
  induction typeNode as [typeName | elementType IH | k]; intros extended;
    simpl.
  - apply marksOnly_serializeTypeReference.
  - destruct extended; [|apply marksOnly_ret].
    apply marksOnly_bind; [apply IH | intros; apply marksOnly_ret].
  - destruct k, extended;
      first [apply marksOnly_ret | apply marksOnly_throw].
Qed.

Lemma marksOnly_serializeTypeRef (typeNode : option TypeNode)
  (extended : bool) :
  marksOnly (serializeTypeRef typeNode extended).
Proof.
  destruct typeNode; simpl;
    [apply marksOnly_serializeTypeNode | apply marksOnly_ret].
Qed.

Lemma marksOnly_extractParam (param : ParameterDeclaration) :
  marksOnly (extractParam param).
Proof.
  unfold extractParam.
  apply marksOnly_bind; [apply marksOnly_serializeTypeRef | intros c].
  apply marksOnly_bind; [apply marksOnly_serializeTypeRef | intros e].
  apply marksOnly_ret.
Qed.

Lemma marksOnly_mapM {A B} (g : A -> M B) (l : list A) :
  (forall x, marksOnly (g x)) -> marksOnly (mapM g l).
Proof.
  intros Hg. induction l as [|x xs IH]; simpl.
  - apply marksOnly_ret.
  - apply marksOnly_bind; [apply Hg | intros y].
    apply marksOnly_bind; [apply IH | intros ys]. apply marksOnly_ret.
Qed.

(** A computation that only marks, run from a map holding the same imports,
    succeeds with the same value. *)
Lemma marksOnly_run {A} (c : M A) (m0 m : ImportMap) (a : A) :
  marksOnly c -> sameImports m m0 -> evalM c m0 = Ok a ->
  exists m', c m = Ok (a, m') /\ sameImports m' m0.
Proof.
  intros [H1 H2] Hs Hv. rewrite <- (H2 m m0 Hs) in Hv.
  apply evalM_Ok in Hv. destruct Hv as [m' Hm']. exists m'. split; [assumption|].
  eapply sameImports_trans; [eapply H1; eassumption | assumption].
Qed.

(** *** Parameter descriptors *)

Lemma modifierFlags_code (k : Modifier) :
  modifierFlags k = match modifierCode k with Some c => [c] | None => [] end.
Proof. destruct k; reflexivity. Qed.

Lemma paramFlags_expected (param : ParameterDeclaration) :
  paramFlags param = expectedCodes param.
Proof.
  unfold paramFlags, expectedCodes. f_equal.
  destruct (param_modifiers param) as [ms|]; [|reflexivity].
  induction ms as [|k ms IH]; simpl; [reflexivity|].
  now rewrite IH, modifierFlags_code.
Qed.

Lemma expectedCodes_flagged (param : ParameterDeclaration) :
  (0 <? length (expectedCodes param))%nat = flagged param.
Proof.
  unfold expectedCodes, flagged.
  destruct (param_questionToken param); simpl.
  - rewrite length_app. simpl. apply Nat.ltb_lt. lia.
  - rewrite app_nil_r.
    match goal with |- context [flat_map _ ?l] => generalize l end.
    intros ms. induction ms as [|k ms IH]; simpl; [reflexivity|].
    destruct (modifierCode k); simpl; [reflexivity | exact IH].
Qed.

Lemma mapM_extractParam (parameters : list ParameterDeclaration)
  (m0 : ImportMap) :
  (forall p, In p parameters ->
     exists c e,
       evalM (serializeTypeRef (param_type p) false) m0 = Ok c
       /\ evalM (serializeTypeRef (param_type p) true) m0 = Ok e) ->
  forall m, sameImports m m0 ->
  exists metas m',
    mapM extractParam parameters m = Ok (metas, m')
    /\ sameImports m' m0
    /\ Forall2 (fun p cd =>
                  evalM (serializeTypeRef (param_type p) false) m0 = Ok (fst cd)
                  /\ describes m0 p (snd cd))
         parameters metas.
Proof.
  induction parameters as [|p ps IH]; intros Hok m Hs; simpl.
  - exists [], m. repeat split; [assumption | constructor].
  - destruct (Hok p (or_introl eq_refl)) as (c & e & Hc & He).
    destruct (marksOnly_run _ m0 m c (marksOnly_serializeTypeRef _ _) Hs Hc)
      as (m1 & Hrun1 & Hs1).
    destruct (marksOnly_run _ m0 m1 e (marksOnly_serializeTypeRef _ _) Hs1 He)
      as (m2 & Hrun2 & Hs2).
    destruct (IH (fun q Hq => Hok q (or_intror Hq)) m2 Hs2)
      as (metas & m' & Hrest & Hs' & Hall).
    eexists; exists m'. unfold bind at 1. unfold extractParam at 1.
    unfold bind at 1. rewrite Hrun1. unfold bind at 1. rewrite Hrun2.
    unfold ret at 1. unfold bind at 1. rewrite Hrest. unfold ret.
    repeat split; [assumption|].
    constructor; [|exact Hall]. simpl. split; [assumption|].
    repeat split; [now exists e|].
    now rewrite paramFlags_expected, expectedCodes_flagged.
Qed.

(** C8: when the types of all parameters serialize, in both forms, against
    the import map, [extractParamsMetadata] emits under [rt:p] one
    descriptor per declared parameter, in declaration order; each carries
    the parameter's name and the forward reference to the extended form of
    its type; its flag field holds the codes of the readonly and visibility
    modifiers and the optional marker when there is any, and is left out
    when there is none. *)
Theorem extractParamsMetadata_descriptors
  (parameters : list ParameterDeclaration) (importMap : ImportMap) :
  (forall p, In p parameters ->
     exists c e,
       evalM (serializeTypeRef (param_type p) false) importMap = Ok c
       /\ evalM (serializeTypeRef (param_type p) true) importMap = Ok e) ->
  exists metas rest importMap',
    extractParamsMetadata parameters importMap
    = Ok (metadataDecorator "rt:p" (serializedParams metas) :: rest, importMap')
    /\ length metas = length parameters
    /\ Forall2 (describes importMap) parameters metas.
Proof.
  intros Hok.
  destruct (mapM_extractParam parameters importMap Hok importMap
              (sameImports_refl _)) as (pairs & m' & Hrun & _ & Hall).
  exists (map snd pairs).
  exists (if truthy emitStandardMetadata
          then [metadataDecorator "design:paramtypes"
                  (literalNodes (map fst pairs))]
          else []).
  exists m'. split; [|split].
  - unfold extractParamsMetadata, bind. rewrite Hrun.
    now destruct (truthy emitStandardMetadata).
  - rewrite length_map. symmetry. eapply Forall2_length. exact Hall.
  - clear Hrun Hok.
    induction Hall as [|p cd ps cds [_ Hd] _ IH]; simpl;
      [constructor | constructor; assumption].
Qed.

(** *** Inferred return types *)

Lemma typeToTypeRef_table (type : TsType) :
  typeToTypeRef type = lookupChecked (flags type) checkedTypeTable.
Proof.
  unfold typeToTypeRef, checkedTypeTable, lookupChecked.
  repeat match goal with
         | |- context [(?a =? 0)%Z] => destruct (a =? 0)%Z; simpl
         end; reflexivity.
Qed.

(** C9: for a method without a return-type annotation the descriptor under
    [rt:t] is the forward reference to the entry of the checked-type table
    for the signature's return type, which is the generic [Object] reference
    for every type the table does not know; computing it cannot fail and
    serializes nothing: [extractMethodMetadata] fails exactly when the
    parameter metadata does, and leaves the import map as the parameter
    metadata left it. *)
Theorem extractMethodMetadata_inferred_return (method : MethodDeclaration)
  (importMap : ImportMap) :
  method_type method = None ->
  let returnT := typeToTypeRef (getReturnType program method) in
  returnT = lookupChecked (flags (getReturnType program method)) checkedTypeTable
  /\ (Forall (fun entry =>
                Z.land (flags (getReturnType program method)) (fst entry) = 0%Z)
        checkedTypeTable ->
      returnT = Identifier "Object")
  /\ extractMethodMetadata method importMap
     = match extractParamsMetadata (method_parameters method) importMap with
       | Ok (params, importMap') =>
           Ok ((if truthy emitStandardMetadata
                then [metadataDecorator "design:type"
                        (literalNode (Identifier "Function"))]
                else [])
               ++ params
               ++ [metadataDecorator "rt:f"
                     (FlagString
                        (F_METHOD ++ getVisibility (method_modifiers method)
                           ++ isAbstract (method_modifiers method))%string);
                   metadataDecorator "rt:t" (literalNode (forwardRef returnT))]
               ++ (if truthy emitStandardMetadata
                   then [metadataDecorator "design:returntype"
                           (literalNode VoidZero)]
                   else []),
               importMap')
       | Throw e => Throw e
       end.
Proof.
  intros Hty returnT. split; [apply typeToTypeRef_table|]. split.
  - intros Hall. unfold returnT. rewrite typeToTypeRef_table.
    unfold checkedTypeTable in *.
    repeat match goal with
           | H : Forall _ (_ :: _) |- _ => inversion H; subst; clear H
           end.
    simpl in *.
    repeat match goal with
           | H : Z.land _ _ = 0%Z |- _ => rewrite H; clear H
           end.
    reflexivity.
  - unfold extractMethodMetadata, bind. rewrite Hty.
    destruct (extractParamsMetadata (method_parameters method) importMap)
      as [[params m']|e]; [|reflexivity].
    fold returnT. destruct (truthy emitStandardMetadata); unfold ret; simpl;
      repeat rewrite <- app_assoc; simpl; reflexivity.
Qed.

(** *** Prepending to a member-access path *)

(** [propertyPrepend] throws on every property access: its recursion ends
    at an access whose [expression] is not itself a property access, which
    is the case it refuses. *)
Lemma propertyPrepend_access_throws (expr inner : Expression) (nm : string) :
  exists e, propertyPrepend expr (PropertyAccessExpression inner nm) = Throw e.
Proof.
  revert nm. induction inner; intros nm; simpl; try (eexists; reflexivity).
  destruct (IHinner name0) as [e He]. simpl in He.
  destruct inner; try (eexists; reflexivity).
  rewrite He. eexists; reflexivity.
Qed.

Lemma propertyPrepend_clone_throws (expr : Expression) (l : EntityName)
  (r root : string) :
  propertyPrepend expr (cloneEntityNameAsExpr (QualifiedName l r) root)
  = Throw (Error "Unsupported expression type 'PropertyAccessExpression'").
Proof.
  revert r. induction l as [text | l IH r']; intros r; simpl.
  - reflexivity.
  - specialize (IH r'). simpl in IH. now rewrite IH.
Qed.

(** Under CommonJS a bare reference to a tracked named import becomes a
    property access on [require(modulePath)], and the record is marked. *)
Lemma serializeTypeRef_commonjs_named_identifier (text : string)
  (impo : TypeImport) (extended : bool) (importMap : ImportMap) :
  isCommonJS = true ->
  map_get text importMap = Some impo ->
  isNamespace impo = false ->
  serializeTypeRef (Some (TypeReferenceNode (NameIdentifier text))) extended
    importMap
  = Ok (PropertyAccessExpression
          (CallExpression (Identifier "require")
             [StringLiteral (modulePath impo)])
          text,
        map_set text (set_referenced impo) importMap).
Proof.
  intros Hcjs Hget Hns. simpl. unfold serializeTypeReference.
  rewrite Hcjs. unfold bind, importMap_get. simpl. rewrite Hget.
  unfold mark_referenced, importMap_set. now rewrite Hns.
Qed.

(** Under CommonJS a dotted reference whose root is a tracked named import
    makes the serializer throw, in both modes. *)
Lemma serializeTypeRef_commonjs_named_dotted (l : EntityName) (r : string)
  (impo : TypeImport) (extended : bool) (importMap : ImportMap) :
  isCommonJS = true ->
  map_get (getRootNameOfEntityName l) importMap = Some impo ->
  isNamespace impo = false ->
  serializeTypeRef (Some (TypeReferenceNode (QualifiedName l r))) extended
    importMap
  = Throw (Error "Unsupported expression type 'PropertyAccessExpression'").
Proof.
  intros Hcjs Hget Hns. simpl. unfold serializeTypeReference.
  rewrite Hcjs. unfold bind, importMap_get.
  change (getRootNameOfEntityName (QualifiedName l r))
    with (getRootNameOfEntityName l).
  rewrite Hget. unfold mark_referenced, importMap_set. rewrite Hns.
  unfold lift, nameAsExpr. simpl negb. cbv iota.
  now rewrite propertyPrepend_clone_throws.
Qed.

(** *** Import synthesis *)

Lemma indexOf_spec (statements : list Statement) (d : ImportDeclaration) :
  (indexOf statements d = (-1)%Z /\ ~ In (ImportStatement d) statements)
  \/ (exists pre post,
        statements = pre ++ ImportStatement d :: post
        /\ ~ In (ImportStatement d) pre
        /\ indexOf statements d = Z.of_nat (length pre)).
Proof.
  induction statements as [|s rest IH]; simpl.
  - left. split; [reflexivity | tauto].
  - assert (Hstep :
      ImportStatement d <> s ->
      ((if (indexOf rest d <? 0)%Z then (-1)%Z else (indexOf rest d + 1)%Z)
       = (-1)%Z /\ ~ (s = ImportStatement d \/ In (ImportStatement d) rest))
      \/ (exists pre post,
            s :: rest = pre ++ ImportStatement d :: post
            /\ ~ In (ImportStatement d) pre
            /\ (if (indexOf rest d <? 0)%Z then (-1)%Z
                else (indexOf rest d + 1)%Z) = Z.of_nat (length pre))).
    { intros Hne. destruct IH as [[Hi Hnot] | (pre & post & -> & Hnot & Hi)].
      - left. rewrite Hi. simpl. split; [reflexivity|].
        intros [H|H]; [now apply Hne | now apply Hnot].
      - right. exists (s :: pre), post. repeat split.
        + simpl. intros [H|H]; [now apply Hne | now apply Hnot].
        + rewrite Hi. destruct (Z.of_nat (length pre) <? 0)%Z eqn:E.
          * apply Z.ltb_lt in E. lia.
          * simpl length. lia. }
    destruct s as [d' | c | | body | text];
      try (apply Hstep; discriminate).
    destruct (ImportDeclaration_eq_dec d' d) as [->|Hne].
    + right. exists [], rest. repeat split. simpl. tauto.
    + apply Hstep. congruence.
Qed.

Lemma ownedImpo_boundNames (impo : TypeImport) :
  boundNames (ownedImpo impo) = [localName impo].
Proof. unfold boundNames, ownedImpo. simpl. now destruct (isNamespace impo). Qed.

Lemma eligible_false (impo : TypeImport) (statements : list Statement) :
  eligible impo = false -> generateImport statements impo = statements.
Proof.
  unfold eligible, generateImport.
  destruct (truthy (referenced impo)); simpl; [|reflexivity].
  destruct (isCommonJS && negb (isNamespace impo)); simpl;
    [reflexivity | discriminate].
Qed.

Lemma eligible_true (impo : TypeImport) (statements : list Statement) :
  eligible impo = true ->
  insertedBefore (importDeclaration impo) (ImportStatement (ownedImpo impo))
    statements (generateImport statements impo).
Proof.
  unfold eligible, generateImport.
  destruct (truthy (referenced impo)); simpl; [|discriminate].
  destruct (isCommonJS && negb (isNamespace impo)); simpl; [discriminate|].
  intros _.
  destruct (indexOf_spec statements (importDeclaration impo))
    as [[Hi Hnot] | (pre & post & -> & Hnot & Hi)]; rewrite Hi.
  - simpl. now apply inserted_top.
  - destruct (Z.of_nat (length pre) >=? 0)%Z eqn:E; [|lia].
    unfold splice. rewrite Nat2Z.id.
    rewrite firstn_app, firstn_all, Nat.sub_diag, skipn_app, skipn_all,
      Nat.sub_diag. simpl. rewrite app_nil_r.
    now apply inserted_located.
Qed.

Lemma generateImport_length (impo : TypeImport) (statements : list Statement) :
  length (generateImport statements impo)
  = (length statements + if eligible impo then 1 else 0)%nat.
Proof.
  destruct (eligible impo) eqn:E.
  - destruct (eligible_true impo statements E); simpl;
      repeat rewrite length_app; simpl; lia.
  - rewrite eligible_false by assumption. lia.
Qed.

Lemma generateImports_relation (importMap : ImportMap)
  (statements : list Statement) :
  synthesized (map_values importMap) statements
    (generateImports importMap statements).
Proof.
  unfold generateImports. generalize (map_values importMap) as records.
  intros records. revert statements.
  induction records as [|impo rest IH]; intros statements; simpl.
  - constructor.
  - destruct (eligible impo) eqn:E.
    + eapply synthesized_insert with (d := ownedImpo impo);
        [assumption | reflexivity | apply ownedImpo_boundNames
        | now apply eligible_true | apply IH].
    + rewrite eligible_false by assumption.
      apply synthesized_skip; [assumption | apply IH].
Qed.

Lemma generateImports_length (importMap : ImportMap)
  (statements : list Statement) :
  length (generateImports importMap statements)
  = (length statements + length (filter eligible (map_values importMap)))%nat.
Proof.
  unfold generateImports. generalize (map_values importMap) as records.
  intros records. revert statements.
  induction records as [|impo rest IH]; intros statements; simpl.
  - lia.
  - rewrite IH, generateImport_length.
    destruct (eligible impo); simpl; lia.
Qed.

(** C6: import synthesis goes through the records of the import map in
    order and adds, for each referenced record, exactly one import statement
    binding the record's alias to the module path of the record's original
    import statement, immediately before that statement, or at the top of
    the module when the statement is not among the module's statements;
    under CommonJS only records of namespace imports are eligible, the named
    ones are skipped. *)
Theorem generateImports_synthesized (importMap : ImportMap)
  (statements : list Statement) :
  synthesized (map_values importMap) statements
    (generateImports importMap statements)
  /\ length (generateImports importMap statements)
     = (length statements
        + length (filter eligible (map_values importMap)))%nat
  /\ (forall impo,
        eligible impo
        = if isCommonJS then truthy (referenced impo) && isNamespace impo
          else truthy (referenced impo)).
Proof.
  split; [apply generateImports_relation|].
  split; [apply generateImports_length|].
  intros impo. unfold eligible.
  destruct isCommonJS, (truthy (referenced impo)), (isNamespace impo);
    reflexivity.
Qed.

(** *** Referencing a record again *)

Lemma settles_assureTypeAvailable (entityName : EntityName) :
  settles (assureTypeAvailable entityName).
Proof.
  unfold settles, assureTypeAvailable, bind, importMap_get, mark_referenced,
    importMap_set, ret.
  intros m a m'.
  destruct (map_get (getRootNameOfEntityName entityName) m) as [impo|] eqn:E.
  - intros [= <- <-]. rewrite map_get_set_same. simpl.
    now rewrite map_set_set.
  - intros [= <- <-]. now rewrite E.
Qed.

Lemma settles_serializeTypeReference (typeName : EntityName) :
  settles (serializeTypeReference typeName).
Proof.
  unfold settles, serializeTypeReference. intros m a m'.
  destruct isCommonJS.
  - unfold bind at 1, importMap_get.
    destruct (map_get (getRootNameOfEntityName typeName) m) as [impo|] eqn:E.
    + unfold bind at 1, mark_referenced, importMap_set.
      destruct (isNamespace impo) eqn:Hns; cbn [negb].
      * unfold bind at 1. intros H.
        destruct (assureTypeAvailable typeName _) as [[root m1]|e] eqn:Ha;
          [|discriminate].
        injection H as <- <-.
        pose proof (settles_assureTypeAvailable _ _ _ _ Ha) as Ha'.
        assert (Hget : map_get (getRootNameOfEntityName typeName) m1
                       = Some (set_referenced impo)).
        { revert Ha. unfold assureTypeAvailable, bind, importMap_get,
            mark_referenced, importMap_set, ret.
          rewrite map_get_set_same. intros [= _ <-].
          now rewrite map_get_set_same. }
        assert (Hm1 : map_set (getRootNameOfEntityName typeName)
                        (set_referenced impo) m1 = m1).
        { revert Ha. unfold assureTypeAvailable, bind, importMap_get,
            mark_referenced, importMap_set, ret.
          rewrite map_get_set_same. intros [= _ <-].
          now rewrite !map_set_set. }
        unfold bind, importMap_get. rewrite Hget.
        unfold mark_referenced, importMap_set.
        change (isNamespace (set_referenced impo)) with (isNamespace impo).
        rewrite Hns. cbn [negb].
        rewrite set_referenced_idempotent, Hm1.
        unfold bind in Ha'. now rewrite Ha'.
      * unfold lift. destruct (propertyPrepend _ _) as [e|e] eqn:Hp;
          [|discriminate].
        intros [= <- <-]. unfold bind, importMap_get.
        rewrite map_get_set_same. unfold mark_referenced, importMap_set.
        change (isNamespace (set_referenced impo)) with (isNamespace impo).
        change (modulePath (set_referenced impo)) with (modulePath impo).
        rewrite Hns. cbn [negb].
        rewrite Hp. now rewrite map_set_set.
    + intros [= <- <-]. unfold bind, importMap_get. now rewrite E.
  - unfold bind at 1. intros H.
    destruct (assureTypeAvailable typeName m) as [[root m1]|e] eqn:Ha;
      [|discriminate].
    injection H as <- <-. unfold bind.
    now rewrite (settles_assureTypeAvailable _ _ _ _ Ha).
Qed.

Lemma settles_serializeTypeNode (typeNode : TypeNode) (extended : bool) :
  settles (serializeTypeNode typeNode extended).
Proof.
  revert extended.
  induction typeNode as [typeName | elementType IH | k]; intros extended;
    simpl.
  - apply settles_serializeTypeReference.
  - destruct extended.
    + intros m a m'. unfold bind at 1.
      destruct (serializeTypeNode elementType true m) as [[e m1]|e] eqn:He;
        [|discriminate].
      intros [= <- <-]. unfold bind. now rewrite (IH true _ _ _ He).
    + intros m a m' [= <- <-]. reflexivity.
  - intros m a m'. destruct k, extended; try discriminate;
      intros [= <- <-]; reflexivity.
Qed.

Lemma sameImports_keys (m1 m2 : ImportMap) :
  sameImports m1 m2 -> map fst m1 = map fst m2.
Proof.
  unfold sameImports, eraseMap. intros H.
  apply (f_equal (map fst)) in H. rewrite !map_map in H. exact H.
Qed.

Lemma bindingCount_app (x : string) (l1 l2 : list Statement) :
  bindingCount x (l1 ++ l2) = (bindingCount x l1 + bindingCount x l2)%nat.
Proof. unfold bindingCount. now rewrite filter_app, length_app. Qed.

Lemma bindingCount_inserted (x : string) (d : ImportDeclaration)
  (s : Statement) (before after : list Statement) :
  insertedBefore d s before after ->
  bindingCount x after = (bindingCount x before + bindingCount x [s])%nat.
Proof.
  intros [pre post _ | statements _].
  - rewrite !bindingCount_app.
    change (s :: ImportStatement d :: post)
      with ([s] ++ ImportStatement d :: post).
    rewrite bindingCount_app. lia.
  - change (s :: statements) with ([s] ++ statements).
    rewrite bindingCount_app. lia.
Qed.

Lemma bindingCount_generateImport (x : string) (impo : TypeImport)
  (statements : list Statement) :
  bindingCount x (generateImport statements impo)
  = (bindingCount x statements + length (aliasRecords x [impo]))%nat.
Proof.
  unfold aliasRecords. cbn [filter].
  destruct (eligible impo) eqn:E.
  - rewrite (bindingCount_inserted x _ _ _ _ (eligible_true impo statements E)).
    f_equal. unfold bindingCount. cbn [filter].
    rewrite ownedImpo_boundNames. cbn [existsb andb orb].
    rewrite Bool.orb_false_r. now destruct (String.eqb x (localName impo)).
  - rewrite eligible_false by assumption. simpl. lia.
Qed.

Lemma bindingCount_generateImports (x : string) (importMap : ImportMap)
  (statements : list Statement) :
  bindingCount x (generateImports importMap statements)
  = (bindingCount x statements
     + length (aliasRecords x (map_values importMap)))%nat.
Proof.
  unfold generateImports. generalize (map_values importMap) as records.
  intros records. revert statements.
  induction records as [|impo rest IH]; intros statements.
  - simpl. lia.
  - cbn [fold_left]. rewrite IH, bindingCount_generateImport.
    change (impo :: rest) with ([impo] ++ rest).
    unfold aliasRecords. rewrite filter_app, length_app. lia.
Qed.

(** The visitor returns an import statement as it is, and nothing else
    as an import statement. *)
Lemma visitor_importOf (node node' : Statement) (m m' : ImportMap) :
  visitor node m = Ok (node', m') -> importOf node' = importOf node.
Proof.
  destruct node as [d | c | | body | text children]; simpl.
  - unfold bind.
    destruct (visitImportDeclaration d m) as [[u m1]|e]; [|discriminate].
    now intros [= <- _].
  - unfold bind at 1.
    destruct (visitClassDeclaration c m) as [[c' m1]|e]; [|discriminate].
    now intros [= <- _].
  - now intros [= <- _].
  - unfold bind at 1.
    destruct (mapM visitor body m) as [[body' m1]|e]; [|discriminate].
    now intros [= <- _].
  - unfold bind at 1.
    destruct (mapM visitNode children m) as [[children' m1]|e];
      [|discriminate].
    now intros [= <- _].
Qed.

Lemma mapM_visitor_importOf (l l' : list Statement) (m m' : ImportMap) :
  mapM visitor l m = Ok (l', m') -> map importOf l' = map importOf l.
Proof.
  revert l' m m'. induction l as [|s rest IH]; intros l' m m'; simpl.
  - now intros [= <- _].
  - unfold bind at 1.
    destruct (visitor s m) as [[s' m1]|e] eqn:E; [|discriminate].
    unfold bind at 1.
    destruct (mapM visitor rest m1) as [[rest' m2]|e] eqn:E'; [|discriminate].
    intros [= <- _]. simpl.
    now rewrite (visitor_importOf _ _ _ _ E), (IH _ _ _ E').
Qed.

Lemma bindingCount_importOf (x : string) (l l' : list Statement) :
  map importOf l' = map importOf l -> bindingCount x l' = bindingCount x l.
Proof.
  revert l'. induction l as [|s rest IH]; intros [|s' rest']; simpl;
    try discriminate; [reflexivity|].
  intros [= Hs Hrest].
  change (bindingCount x ([s'] ++ rest') = bindingCount x ([s] ++ rest)).
  rewrite !bindingCount_app, (IH _ Hrest). f_equal.
  unfold bindingCount. cbn [filter].
  destruct s, s'; simpl in Hs; try discriminate; try reflexivity.
  now injection Hs as ->.
Qed.

(** One run of the pass adds, to the imports that bind an alias, one for
    each eligible record of the import map the run builds. *)
Lemma rttiTransformer_bindingCount (sourceFile result : SourceFile) :
  rttiTransformer sourceFile = Ok result ->
  exists visited importMap,
    mapM visitor (RtHelper :: statements sourceFile) [] = Ok (visited, importMap)
    /\ forall x,
         bindingCount x (statements result)
         = (bindingCount x (statements sourceFile)
            + length (aliasRecords x (map_values importMap)))%nat.
Proof.
  unfold rttiTransformer. cbn [statements].
  destruct (mapM visitor (RtHelper :: statements sourceFile) [])
    as [[visited importMap]|e] eqn:E; [|discriminate].
  intros [= <-]. exists visited, importMap. split; [reflexivity|].
  intros x. cbn [statements].
  rewrite bindingCount_generateImports.
  now rewrite (bindingCount_importOf x _ _ (mapM_visitor_importOf _ _ _ _ E)).
Qed.

(** C4, as the code has it: within one run, a reference to a record that
    is already referenced yields the same expression and leaves the import
    map as it is; serializing creates no record, and import synthesis adds
    no more statements than the map has records.  Nothing is kept from
    one run to the next, and import synthesis does not look at the imports
    the statements already hold: every run builds its import map from the
    empty one, and the imports that bind an alias become those the module
    had plus one for each eligible record of that map with that alias,
    also when the module, as the output of an earlier run does, imports
    the alias already. *)
Theorem reference_again_no_second_alias (typeNode : option TypeNode)
  (extended : bool) (importMap importMap' : ImportMap) (e : Expression)
  (current : list Statement) :
  serializeTypeRef typeNode extended importMap = Ok (e, importMap') ->
  serializeTypeRef typeNode extended importMap' = Ok (e, importMap')
  /\ map fst importMap' = map fst importMap
  /\ (length (generateImports importMap' current)
      <= length current + length importMap)%nat
  /\ (forall x,
        bindingCount x (generateImports importMap' current)
        = (bindingCount x current
           + length (aliasRecords x (map_values importMap')))%nat)
  /\ forall sourceFile result,
       rttiTransformer sourceFile = Ok result ->
       exists visited built,
         mapM visitor (RtHelper :: statements sourceFile) []
         = Ok (visited, built)
         /\ forall x,
              bindingCount x (statements result)
              = (bindingCount x (statements sourceFile)
                 + length (aliasRecords x (map_values built)))%nat.
Proof.
  intros H. split; [|split; [|split; [|split]]].
  - destruct typeNode as [typeNode|]; simpl in *.
    + now apply (settles_serializeTypeNode _ _ _ _ _ H).
    + now injection H as <- <-.
  - apply sameImports_keys.
    now apply (proj1 (marksOnly_serializeTypeRef typeNode extended) _ _ _ H).
  - rewrite generateImports_length.
    apply Nat.add_le_mono_l.
    eapply Nat.le_trans; [apply filter_length_le|].
    unfold map_values. rewrite length_map.
    assert (Hk : map fst importMap' = map fst importMap).
    { apply sameImports_keys.
      now apply (proj1 (marksOnly_serializeTypeRef typeNode extended) _ _ _ H). }
    apply (f_equal (@length _)) in Hk. rewrite !length_map in Hk. lia.
  - intros x. apply bindingCount_generateImports.
  - apply rttiTransformer_bindingCount.
Qed.

(** *** Local names *)

Lemma string_length_append (a b : string) :
  String.length (a ++ b) = (String.length a + String.length b)%nat.
Proof. induction a as [|c a IH]; simpl; [reflexivity | now rewrite IH]. Qed.

Lemma string_append_cancel_r (a b s : string) :
  (a ++ s = b ++ s)%string -> a = b.
Proof.
  revert b. induction a as [|c a IH]; intros [|c' b] H; simpl in H.
  - reflexivity.
  - apply (f_equal String.length) in H. simpl in H.
    rewrite string_length_append in H. lia.
  - apply (f_equal String.length) in H. simpl in H.
    rewrite string_length_append in H. lia.
  - injection H as -> H. f_equal. now apply IH.
Qed.

Lemma aliasesMarked_same (m m' : ImportMap) :
  sameImports m' m -> aliasesMarked m -> aliasesMarked m'.
Proof.
  unfold sameImports, aliasesMarked, map_values, eraseMap. intros Hs Hm.
  assert (He : forall l : ImportMap,
             Forall markedAlias (map snd l)
             <-> Forall markedAlias
                   (map snd (map (fun kv => (fst kv, erase (snd kv))) l))).
  { induction l as [|[k v] l IH]; simpl; [tauto|].
    split; intros H; inversion H as [|x xs Hx Hxs]; subst; constructor;
      try exact Hx; now apply IH. }
  apply (proj2 (He m')). rewrite Hs. apply (proj1 (He m)). exact Hm.
Qed.

Lemma aliasesMarked_set (k : string) (v : TypeImport) (m : ImportMap) :
  markedAlias v -> aliasesMarked m -> aliasesMarked (map_set k v m).
Proof.
  unfold aliasesMarked, map_values. intros Hv.
  induction m as [|[k' v'] m IH]; simpl; intros Hm.
  - now constructor.
  - inversion Hm; subst. destruct (String.eqb k k'); simpl;
      constructor; auto.
Qed.

Lemma setNamedImports_marked (node : ImportDeclaration)
  (clause : ImportClause) (all elements : list ImportSpecifier)
  (m m' : ImportMap) (u : unit) :
  importClause node = Some clause ->
  namedBindings clause = Some (NamedImports all) ->
  incl elements all ->
  setNamedImports node elements m = Ok (u, m') ->
  aliasesMarked m -> aliasesMarked m'.
Proof.
  intros Hc Hb. revert m.
  induction elements as [|binding rest IH]; intros m Hincl; simpl.
  - now intros [= _ <-].
  - unfold bind, importMap_set. intros Hrun Hm.
    apply (IH _ (fun b Hb' => Hincl b (or_intror Hb')) Hrun).
    apply aliasesMarked_set; [|assumption].
    exists (match propertyName binding with
            | Some text => text
            | None => spec_name binding
            end).
    split; [|reflexivity].
    unfold importedAs, namedImportRecord. simpl. rewrite Hc, Hb.
    split; [reflexivity|]. exists binding.
    repeat split. apply Hincl. now left.
Qed.

Lemma visitImportDeclaration_marked (node : ImportDeclaration)
  (m m' : ImportMap) (u : unit) :
  visitImportDeclaration node m = Ok (u, m') ->
  aliasesMarked m -> aliasesMarked m'.
Proof.
  unfold visitImportDeclaration.
  destruct (importClause node) as [clause|] eqn:Hc.
  - destruct (namedBindings clause) as [[elements|text]|] eqn:Hb.
    + intros H. eapply setNamedImports_marked; eauto. apply incl_refl.
    + unfold importMap_set. intros [= _ <-] Hm.
      apply aliasesMarked_set; [|assumption].
      exists text. split; [|reflexivity].
      unfold importedAs, namespaceImportRecord. simpl. rewrite Hc, Hb. auto.
    + discriminate.
  - now intros [= _ <-].
Qed.

(** Composite computations that only mark. *)
Ltac marks :=
  repeat first
    [ apply marksOnly_ret
    | apply marksOnly_throw
    | apply marksOnly_serializeTypeRef
    | apply marksOnly_bind; [|intros]
    | match goal with
      | |- marksOnly (if ?b then _ else _) => destruct b
      | |- marksOnly (match ?x with _ => _ end) => destruct x
      end ].

Lemma marksOnly_extractTypeMetadata (type : option TypeNode)
  (standardName : string) :
  marksOnly (extractTypeMetadata type standardName).
Proof. unfold extractTypeMetadata. marks. Qed.

Lemma marksOnly_extractParamsMetadata
  (parameters : list ParameterDeclaration) :
  marksOnly (extractParamsMetadata parameters).
Proof.
  unfold extractParamsMetadata.
  apply marksOnly_bind;
    [apply marksOnly_mapM, marksOnly_extractParam | intros; marks].
Qed.

Lemma marksOnly_extractClassMetadata (klass : ClassDeclaration) :
  marksOnly (extractClassMetadata klass).
Proof.
  unfold extractClassMetadata. apply marksOnly_bind; [|intros; marks].
  destruct (find_constructor (members klass));
    [apply marksOnly_extractParamsMetadata | apply marksOnly_ret].
Qed.

Lemma marksOnly_extractPropertyMetadata (property : PropertyDeclaration) :
  marksOnly (extractPropertyMetadata property).
Proof.
  unfold extractPropertyMetadata.
  apply marksOnly_bind; [apply marksOnly_extractTypeMetadata | intros; marks].
Qed.

Lemma marksOnly_extractMethodMetadata (method : MethodDeclaration) :
  marksOnly (extractMethodMetadata method).
Proof.
  unfold extractMethodMetadata.
  apply marksOnly_bind; [apply marksOnly_extractParamsMetadata | intros ps].
  destruct (method_type method).
  - apply marksOnly_bind; [apply marksOnly_serializeTypeRef | intros _].
    apply marksOnly_bind; [apply marksOnly_extractTypeMetadata | intros; marks].
  - marks.
Qed.

(** Induction on the nodes below a statement. *)
Lemma Node_induction (P : Node -> Prop) :
  (forall c : ClassDeclaration,
      Forall P (class_children c) ->
      Forall (fun member => Forall P (memberChildren member)) (members c) ->
      P (ClassNode c)) ->
  (forall text children (members : list ClassElement),
      Forall P children ->
      Forall (fun member => Forall P (memberChildren member)) members ->
      P (MembersNode text children members)) ->
  (forall text children, Forall P children -> P (OtherNode text children)) ->
  forall node, P node.
Proof.
  intros Hclass Hmembers Hother. fix IH 1.
  assert (Hlist : forall l : list Node, Forall P l).
  { intros l. induction l as [|x xs IHxs]; constructor;
      [apply IH | exact IHxs]. }
  assert (Hms : forall l : list ClassElement,
             Forall (fun member => Forall P (memberChildren member)) l).
  { intros l. induction l as [|x xs IHxs]; constructor;
      [apply Hlist | exact IHxs]. }
  intros [c | text children ms | text children].
  - apply Hclass; [apply Hlist | apply Hms].
  - apply Hmembers; [apply Hlist | apply Hms].
  - apply Hother, Hlist.
Qed.

(** What holds of the pieces of the walk holds of the walk: [Good] is a
    property of computations that [ret] has, that [bind] keeps and that
    the three extractors have. *)
Section Walk.

Variable Good : forall A : Type, M A -> Prop.
Hypothesis Good_ret : forall A (a : A), Good A (ret a).
Hypothesis Good_bind : forall A B (c : M A) (k : A -> M B),
    Good A c -> (forall a, Good B (k a)) -> Good B (bind c k).
Hypothesis Good_class : forall klass, Good _ (extractClassMetadata klass).
Hypothesis Good_property :
  forall property, Good _ (extractPropertyMetadata property).
Hypothesis Good_method : forall method, Good _ (extractMethodMetadata method).

Lemma walk_mapM {A B} (g : A -> M B) (l : list A) :
  Forall (fun x => Good _ (g x)) l -> Good _ (mapM g l).
Proof.
  induction 1 as [|x xs Hx _ IH]; simpl.
  - apply Good_ret.
  - apply Good_bind; [exact Hx | intros y].
    apply Good_bind; [exact IH | intros ys]. apply Good_ret.
Qed.

Lemma walk_visitClassElementWith (visit : Node -> M Node)
  (node : ClassElement) :
  Forall (fun x => Good _ (visit x)) (memberChildren node) ->
  Good _ (visitClassElementWith visit node).
Proof.
  destruct node as [p ch | md ch | c ch | text ch]; simpl; intros Hch.
  - apply Good_bind; [apply Good_property | intros decs].
    apply Good_bind; [now apply walk_mapM | intros ch']. apply Good_ret.
  - apply Good_bind; [apply Good_method | intros decs].
    apply Good_bind; [now apply walk_mapM | intros ch']. apply Good_ret.
  - apply Good_bind; [now apply walk_mapM | intros ch']. apply Good_ret.
  - apply Good_bind; [now apply walk_mapM | intros ch']. apply Good_ret.
Qed.

Lemma walk_members (visit : Node -> M Node) (l : list ClassElement) :
  Forall (fun member =>
            Forall (fun x => Good _ (visit x)) (memberChildren member)) l ->
  Good _ (mapM (visitClassElementWith visit) l).
Proof.
  intros H. apply walk_mapM. eapply Forall_impl; [|exact H].
  intros member. apply walk_visitClassElementWith.
Qed.

Lemma walk_visitClassDeclarationWith (visit : Node -> M Node)
  (node : ClassDeclaration) :
  Forall (fun x => Good _ (visit x)) (class_children node) ->
  Forall (fun member =>
            Forall (fun x => Good _ (visit x)) (memberChildren member))
    (members node) ->
  Good _ (visitClassDeclarationWith visit node).
Proof.
  intros Hch Hms. unfold visitClassDeclarationWith.
  apply Good_bind; [apply Good_class | intros decs].
  apply Good_bind; [now apply walk_mapM | intros ch'].
  apply Good_bind; [now apply walk_members | intros ms']. apply Good_ret.
Qed.

Lemma walk_visitNode (node : Node) : Good _ (visitNode node).
Proof.
  induction node as [c Hch Hms | text ch ms Hch Hms | text ch Hch]
    using Node_induction; simpl.
  - apply Good_bind; [|intros c'; apply Good_ret].
    now apply walk_visitClassDeclarationWith.
  - apply Good_bind; [now apply walk_mapM | intros ch'].
    apply Good_bind; [|intros ms'; apply Good_ret]. now apply walk_members.
  - apply Good_bind; [|intros ch'; apply Good_ret]. now apply walk_mapM.
Qed.

Lemma walk_nodes (l : list Node) : Good _ (mapM visitNode l).
Proof.
  apply walk_mapM, Forall_forall. intros x _. apply walk_visitNode.
Qed.

Lemma walk_visitClassElement (node : ClassElement) :
  Good _ (visitClassElement node).
Proof.
  apply walk_visitClassElementWith, Forall_forall.
  intros x _. apply walk_visitNode.
Qed.

Lemma walk_visitClassDeclaration (node : ClassDeclaration) :
  Good _ (visitClassDeclaration node).
Proof.
  apply walk_visitClassDeclarationWith; apply Forall_forall.
  - intros x _. apply walk_visitNode.
  - intros member _. apply Forall_forall. intros x _. apply walk_visitNode.
Qed.

End Walk.

Lemma marksOnly_visitNodes (l : list Node) : marksOnly (mapM visitNode l).
Proof.
  apply (walk_nodes (@marksOnly) (@marksOnly_ret) (@marksOnly_bind)
           marksOnly_extractClassMetadata marksOnly_extractPropertyMetadata
           marksOnly_extractMethodMetadata).
Qed.

Lemma marksOnly_visitClassElement (node : ClassElement) :
  marksOnly (visitClassElement node).
Proof.
  apply (walk_visitClassElement (@marksOnly) (@marksOnly_ret)
           (@marksOnly_bind) marksOnly_extractClassMetadata
           marksOnly_extractPropertyMetadata marksOnly_extractMethodMetadata).
Qed.

Lemma marksOnly_visitClassDeclaration (node : ClassDeclaration) :
  marksOnly (visitClassDeclaration node).
Proof.
  apply (walk_visitClassDeclaration (@marksOnly) (@marksOnly_ret)
           (@marksOnly_bind) marksOnly_extractClassMetadata
           marksOnly_extractPropertyMetadata marksOnly_extractMethodMetadata).
Qed.

Lemma mapM_preserves {A B} (g : A -> M B) (P : ImportMap -> Prop)
  (l : list A) :
  Forall (fun x => forall m y m', g x m = Ok (y, m') -> P m -> P m') l ->
  forall m ys m', mapM g l m = Ok (ys, m') -> P m -> P m'.
Proof.
  induction 1 as [|x xs Hx _ IH]; intros m ys m'; simpl.
  - now intros [= _ <-].
  - unfold bind at 1. destruct (g x m) as [[y m1]|e] eqn:E; [|discriminate].
    unfold bind at 1.
    destruct (mapM g xs m1) as [[ys' m2]|e] eqn:E'; [|discriminate].
    intros [= _ <-] Hm. eapply IH; [eassumption|]. eapply Hx; eassumption.
Qed.

Lemma visitor_marked :
  forall (node : Statement) (m : ImportMap) (node' : Statement)
         (m' : ImportMap),
    visitor node m = Ok (node', m') -> aliasesMarked m -> aliasesMarked m'.
Proof.
  fix IH 1. intros [d | c | | body | text children] m node' m'; simpl.
  - unfold bind.
    destruct (visitImportDeclaration d m) as [[u m1]|e] eqn:E; [|discriminate].
    intros [= _ <-]. now apply (visitImportDeclaration_marked _ _ _ _ E).
  - unfold bind at 1.
    destruct (visitClassDeclaration c m) as [[c' m1]|e] eqn:E; [|discriminate].
    intros [= _ <-]. apply aliasesMarked_same.
    now apply (proj1 (marksOnly_visitClassDeclaration c) _ _ _ E).
  - now intros [= _ <-].
  - unfold bind at 1.
    destruct (mapM visitor body m) as [[body' m1]|e] eqn:E; [|discriminate].
    intros [= _ <-] Hm.
    refine (mapM_preserves visitor aliasesMarked body _ m body' m1 E Hm).
    clear E Hm. induction body as [|s rest IHrest]; constructor;
      [apply IH | exact IHrest].
  - unfold bind at 1.
    destruct (mapM visitNode children m) as [[children' m1]|e] eqn:E;
      [|discriminate].
    intros [= _ <-]. apply aliasesMarked_same.
    now apply (proj1 (marksOnly_visitNodes children) _ _ _ E).
Qed.

(** C3, as the code has it: every record the walk over a module's
    statements leaves in the import map has as its [localName] the name its
    binding imports (the name before [as], else the bound name; the bound
    name of a namespace import) followed by the letter [Φ]; so it differs
    from the alias made from any other imported name. *)
Theorem localName_marked (statements visited : list Statement)
  (importMap : ImportMap) :
  mapM visitor statements [] = Ok (visited, importMap) ->
  Forall (fun impo =>
            exists base,
              importedAs impo base
              /\ localName impo = (base ++ "Φ")%string
              /\ forall base', base' <> base ->
                               localName impo <> (base' ++ "Φ")%string)
    (map_values importMap).
Proof.
  intros H.
  assert (Hall : Forall (fun s => forall m y m',
                             visitor s m = Ok (y, m') ->
                             aliasesMarked m -> aliasesMarked m')
                   statements).
  { apply Forall_forall. intros s _ m y m'. apply visitor_marked. }
  pose proof (mapM_preserves visitor aliasesMarked statements Hall
                [] visited importMap H (Forall_nil _)) as Hm.
  unfold aliasesMarked in Hm. eapply Forall_impl; [|exact Hm].
  intros impo (base & Hb & Hl). exists base. repeat split; try assumption.
  intros base' Hne Heq. apply Hne. rewrite Hl in Heq. symmetry.
  now apply string_append_cancel_r in Heq.
Qed.

(** *** Import clauses without named bindings *)

(** An import without a clause leaves the import map as it is. *)
Lemma visitImportDeclaration_side_effect (node : ImportDeclaration)
  (m : ImportMap) :
  importClause node = None -> visitImportDeclaration node m = Ok (tt, m).
Proof. unfold visitImportDeclaration. now intros ->. Qed.

(** A clause that has only a default name stops the visitor. *)
Lemma visitImportDeclaration_default_only (node : ImportDeclaration)
  (clause : ImportClause) (m : ImportMap) :
  importClause node = Some clause ->
  namedBindings clause = None ->
  visitImportDeclaration node m = Throw TypeError.
Proof. unfold visitImportDeclaration. now intros -> ->. Qed.

Lemma setNamedImports_other (node : ImportDeclaration)
  (elements : list ImportSpecifier) (x : string) (m m' : ImportMap)
  (u : unit) :
  setNamedImports node elements m = Ok (u, m') ->
  ~ In x (map spec_name elements) ->
  map_get x m' = map_get x m.
Proof.
  revert m. induction elements as [|binding rest IH]; intros m; simpl.
  - now intros [= _ <-].
  - unfold bind, importMap_set. intros Hrun Hnot.
    rewrite (IH _ Hrun) by tauto.
    apply map_get_set_other. tauto.
Qed.

(** The visitor makes records for the named and the namespace bindings
    only: a name that is none of them, the clause's default name among
    them, has after the visit the record it had before, if any. *)
Lemma visitImportDeclaration_other (node : ImportDeclaration) (x : string)
  (m m' : ImportMap) (u : unit) :
  visitImportDeclaration node m = Ok (u, m') ->
  match importClause node with
  | Some clause =>
      match namedBindings clause with
      | Some (NamedImports elements) => ~ In x (map spec_name elements)
      | Some (NamespaceImport text) => text <> x
      | None => True
      end
  | None => True
  end ->
  map_get x m' = map_get x m.
Proof.
  unfold visitImportDeclaration.
  destruct (importClause node) as [clause|].
  - destruct (namedBindings clause) as [[elements|text]|].
    + apply setNamedImports_other.
    + unfold importMap_set. intros [= _ <-] Hne.
      now apply map_get_set_other.
    + discriminate.
  - now intros [= _ <-].
Qed.

(** A module that starts with a default-only import is not transformed. *)
Lemma rttiTransformer_default_only (d : ImportDeclaration)
  (clause : ImportClause) (rest : list Statement) :
  importClause d = Some clause ->
  namedBindings clause = None ->
  rttiTransformer {| statements := ImportStatement d :: rest |}
  = Throw TypeError.
Proof.
  intros Hc Hb. unfold rttiTransformer.
  cbn [statements mapM visitor]. unfold bind, ret.
  now rewrite (visitImportDeclaration_default_only d clause [] Hc Hb).
Qed.

(** ** Further properties of the flag encoder *)

(** The modifier list as a list, an absent one being empty. *)
Definition modifierList (modifiers : ModifiersArray) : list Modifier :=
  match modifiers with Some ms => ms | None => [] end.

Lemma some_kind_same_kinds (k : SyntaxKind) (ms ms' : list Modifier) :
  (In k ms <-> In k ms') -> some_kind k ms = some_kind k ms'.
Proof.
  intros H. destruct (some_kind k ms) eqn:E1, (some_kind k ms') eqn:E2;
    try reflexivity.
  - apply some_kind_In in E1. apply some_kind_not_In in E2. tauto.
  - apply some_kind_not_In in E1. apply some_kind_In in E2. tauto.
Qed.

(** X1: the three flag functions look only at which modifier kinds occur:
    two modifier arrays, absent or not, that hold the same kinds, in any
    order and any number of times, get the same visibility code, the same
    readonly flag and the same abstract flag. *)
Theorem flags_depend_on_kinds_only (modifiers modifiers' : ModifiersArray) :
  (forall k, In k (modifierList modifiers) <-> In k (modifierList modifiers')) ->
  getVisibility modifiers = getVisibility modifiers'
  /\ isReadOnly modifiers = isReadOnly modifiers'
  /\ isAbstract modifiers = isAbstract modifiers'.
Proof.
  intros H.
  assert (Hk : forall k,
             some_kind k (modifierList modifiers)
             = some_kind k (modifierList modifiers')).
  { intros k. apply some_kind_same_kinds, H. }
  assert (Hv : forall o, getVisibility o = getVisibility (Some (modifierList o))).
  { intros [ms|]; reflexivity. }
  assert (Hr : forall o, isReadOnly o = isReadOnly (Some (modifierList o))).
  { intros [ms|]; reflexivity. }
  assert (Ha : forall o, isAbstract o = isAbstract (Some (modifierList o))).
  { intros [ms|]; reflexivity. }
  rewrite (Hv modifiers), (Hv modifiers'), (Hr modifiers), (Hr modifiers'),
    (Ha modifiers), (Ha modifiers').
  unfold getVisibility, isReadOnly, isAbstract. now rewrite !Hk.
Qed.

(** ** Further properties of the serializer *)

(** The coarse form that goes with an extended form [e]: the identifier
    [Array] for an array type, and [e] itself for every other node. *)
Definition coarseOf (typeNode : option TypeNode) (e : Expression)
  : Expression :=
  match typeNode with
  | Some (ArrayTypeNode _) => Identifier "Array"
  | _ => e
  end.

(** The array type of the given depth over a base type, and the expression
    that wraps an element expression as many times. *)
Definition arrayOf (depth : nat) (base : TypeNode) : TypeNode :=
  Nat.iter depth ArrayTypeNode base.

Definition arrayLiteralOf (depth : nat) (e : Expression) : Expression :=
  Nat.iter depth (fun x => ArrayLiteralExpression [x]) e.

Lemma coarse_of_extended (typeNode : option TypeNode) (m : ImportMap)
  (e : Expression) :
  evalM (serializeTypeRef typeNode true) m = Ok e ->
  evalM (serializeTypeRef typeNode false) m = Ok (coarseOf typeNode e).
Proof.
  destruct typeNode as [[typeName | elementType | k]|]; simpl.
  - trivial.
  - intros _. reflexivity.
  - destruct k; simpl; trivial; discriminate.
  - trivial.
Qed.

(** X2: whenever the extended form of a type can be serialized, so can the
    coarse form, against the same import map, and the two agree on every
    type but an array type, whose coarse form is the identifier [Array]. *)
Theorem coarse_agrees_with_extended (typeNode : option TypeNode)
  (importMap : ImportMap) (e : Expression) :
  evalM (serializeTypeRef typeNode true) importMap = Ok e ->
  evalM (serializeTypeRef typeNode false) importMap
  = Ok (match typeNode with
        | Some (ArrayTypeNode _) => Identifier "Array"
        | _ => e
        end).
Proof. apply coarse_of_extended. Qed.

(** X3: the extended form of an array type of any depth is the extended
    form of its base type wrapped in as many one-element array literals,
    and fails exactly as the base type does; the coarse form of an array
    type is [Array] whatever the element type, even one that cannot be
    serialized, and leaves the import map alone. *)
Theorem serializeTypeRef_array_nesting (depth : nat) (base : TypeNode)
  (importMap : ImportMap) :
  serializeTypeRef (Some (arrayOf depth base)) true importMap
  = match serializeTypeRef (Some base) true importMap with
    | Ok (e, importMap') => Ok (arrayLiteralOf depth e, importMap')
    | Throw err => Throw err
    end
  /\ serializeTypeRef (Some (arrayOf (S depth) base)) false importMap
     = Ok (Identifier "Array", importMap).
Proof.
  split; [|reflexivity]. unfold serializeTypeRef.
  induction depth as [|depth IH].
  - change (arrayOf 0 base) with base. unfold arrayLiteralOf. simpl.
    now destruct (serializeTypeNode base true importMap) as [[e m']|err].
  - change (arrayOf (S depth) base) with (ArrayTypeNode (arrayOf depth base)).
    cbn [serializeTypeNode]. unfold bind. rewrite IH.
    now destruct (serializeTypeNode base true importMap) as [[e m']|err].
Qed.

Lemma serializeTypeReference_outside_commonjs (typeName : EntityName)
  (m : ImportMap) :
  isCommonJS = false ->
  exists e m', serializeTypeReference typeName m = Ok (e, m').
Proof.
  intros Hcjs. unfold serializeTypeReference. rewrite Hcjs.
  unfold bind, assureTypeAvailable, bind, importMap_get, mark_referenced,
    importMap_set, ret.
  destruct (map_get (getRootNameOfEntityName typeName) m);
    do 2 eexists; reflexivity.
Qed.

Lemma serializeTypeNode_outside_commonjs (typeNode : TypeNode)
  (m : ImportMap) :
  isCommonJS = false ->
  (exists c m', serializeTypeNode typeNode false m = Ok (c, m'))
  /\ (forall err,
        serializeTypeNode typeNode true m = Throw err ->
        exists k,
          recognizedShape (Some (OtherTypeNode k)) = false
          /\ err = Error ("Failed to serializeTypeRef for kind "
                            ++ SyntaxKind_name k ++ "!")%string).
Proof.
  intros Hcjs. split.
  - destruct typeNode as [typeName | elementType | k]; simpl.
    + now apply serializeTypeReference_outside_commonjs.
    + do 2 eexists; reflexivity.
    + destruct k; do 2 eexists; reflexivity.
  - induction typeNode as [typeName | elementType IH | k]; intros err; simpl.
    + destruct (serializeTypeReference_outside_commonjs typeName m Hcjs)
        as (e & m' & ->). discriminate.
    + unfold bind.
      destruct (serializeTypeNode elementType true m) as [[e m']|err'];
        [discriminate|].
      intros [= <-]. now apply IH.
    + intros H. exists k.
      destruct k; simpl in H; try discriminate; injection H as <-;
        split; reflexivity.
Qed.

(** X4: under a module kind other than CommonJS the coarse form of every
    type is serialized without failure, and the only failure of the
    extended form is the error that names the kind of an unrecognized
    node. *)
Theorem serializeTypeRef_outside_commonjs (typeNode : option TypeNode)
  (importMap : ImportMap) :
  isCommonJS = false ->
  (exists c importMap',
     serializeTypeRef typeNode false importMap = Ok (c, importMap'))
  /\ (forall err,
        serializeTypeRef typeNode true importMap = Throw err ->
        exists k,
          recognizedShape (Some (OtherTypeNode k)) = false
          /\ err = Error ("Failed to serializeTypeRef for kind "
                            ++ SyntaxKind_name k ++ "!")%string).
Proof.
  intros Hcjs. destruct typeNode as [typeNode|]; simpl.
  - now apply serializeTypeNode_outside_commonjs.
  - split; [do 2 eexists; reflexivity | discriminate].
Qed.

(** ** Further properties of import synthesis *)

(** [keptIn l l']: the statements of [l] all occur in [l'], in the order
    they have in [l]. *)
Inductive keptIn : list Statement -> list Statement -> Prop :=
| kept_none : keptIn [] []
| kept_same x l l' : keptIn l l' -> keptIn (x :: l) (x :: l')
| kept_added x l l' : keptIn l l' -> keptIn l (x :: l').

Lemma keptIn_refl (l : list Statement) : keptIn l l.
Proof. induction l; constructor; assumption. Qed.

Lemma keptIn_trans (l1 l2 l3 : list Statement) :
  keptIn l1 l2 -> keptIn l2 l3 -> keptIn l1 l3.
Proof.
  intros H12 H23. revert l1 H12.
  induction H23 as [|x l2 l3 H IH|x l2 l3 H IH]; intros l1 H12.
  - assumption.
  - inversion H12; subst.
    + apply kept_same. now apply IH.
    + apply kept_added. now apply IH.
  - apply kept_added. now apply IH.
Qed.

Lemma keptIn_insert (pre post : list Statement) (x : Statement) :
  keptIn (pre ++ post) (pre ++ x :: post).
Proof.
  induction pre as [|a pre IH]; simpl.
  - apply kept_added, keptIn_refl.
  - now apply kept_same.
Qed.

Lemma insertedBefore_keptIn (d : ImportDeclaration) (x : Statement)
  (before after : list Statement) :
  insertedBefore d x before after -> keptIn before after.
Proof.
  intros [pre post _ | statements _].
  - apply keptIn_insert.
  - apply kept_added, keptIn_refl.
Qed.

Lemma insertedBefore_In (d : ImportDeclaration) (x s : Statement)
  (before after : list Statement) :
  insertedBefore d x before after ->
  (In s after <-> s = x \/ In s before).
Proof.
  intros [pre post _ | statements _]; simpl.
  - rewrite !in_app_iff. simpl. intuition (subst; auto).
  - intuition (subst; auto).
Qed.

Lemma generateImport_keptIn (statements : list Statement)
  (impo : TypeImport) :
  keptIn statements (generateImport statements impo).
Proof.
  destruct (eligible impo) eqn:E.
  - eapply insertedBefore_keptIn. now apply eligible_true.
  - rewrite eligible_false by assumption. apply keptIn_refl.
Qed.

Lemma generateImport_In (statements : list Statement) (impo : TypeImport)
  (s : Statement) :
  In s (generateImport statements impo)
  <-> (eligible impo = true /\ s = ImportStatement (ownedImpo impo))
      \/ In s statements.
Proof.
  destruct (eligible impo) eqn:E.
  - rewrite (insertedBefore_In _ _ s _ _ (eligible_true impo statements E)).
    intuition congruence.
  - rewrite eligible_false by assumption. intuition congruence.
Qed.

Lemma fold_generateImport_keptIn (records : list TypeImport)
  (statements : list Statement) :
  keptIn statements (fold_left generateImport records statements).
Proof.
  revert statements. induction records as [|impo rest IH]; intros statements;
    simpl.
  - apply keptIn_refl.
  - eapply keptIn_trans; [apply generateImport_keptIn | apply IH].
Qed.

Lemma fold_generateImport_In (records : list TypeImport)
  (statements : list Statement) (s : Statement) :
  In s (fold_left generateImport records statements)
  <-> (exists impo, In impo records /\ eligible impo = true
                    /\ s = ImportStatement (ownedImpo impo))
      \/ In s statements.
Proof.
  revert statements. induction records as [|impo rest IH]; intros statements;
    simpl.
  - split; [auto | intros [(impo & [] & _) | H]; assumption].
  - rewrite IH, generateImport_In. split.
    + intros [(r & Hr & He & Hs) | [[He Hs] | H]].
      * left. exists r. auto.
      * left. exists impo. auto.
      * now right.
    + intros [(r & [<- | Hr] & He & Hs) | H].
      * right. left. auto.
      * left. exists r. auto.
      * right. now right.
Qed.

(** X5: import synthesis only adds: the statements it is given all stay,
    in their order, and a statement of its result is either one of them or
    the alias import made for a record of the map that is referenced (and,
    under CommonJS, is a namespace import). *)
Theorem generateImports_only_adds (importMap : ImportMap)
  (statements : list Statement) :
  keptIn statements (generateImports importMap statements)
  /\ forall s,
       In s (generateImports importMap statements)
       <-> (exists impo,
              In impo (map_values importMap) /\ eligible impo = true
              /\ s = ImportStatement (ownedImpo impo))
           \/ In s statements.
Proof.
  split; [apply fold_generateImport_keptIn|].
  intros s. apply fold_generateImport_In.
Qed.

Lemma filter_nil_iff {A} (p : A -> bool) (l : list A) :
  filter p l = [] <-> Forall (fun x => p x = false) l.
Proof.
  induction l as [|x l IH]; simpl.
  - split; constructor.
  - destruct (p x) eqn:E; split.
    + discriminate.
    + intros H. inversion H; subst. congruence.
    + intros H. constructor; [assumption | now apply IH].
    + intros H. inversion H; subst. now apply IH.
Qed.

(** X6: import synthesis returns the statements unchanged exactly when no
    record of the map is eligible; in particular a module whose imports
    are never referenced, or that has no import, gets no statement
    added. *)
Theorem generateImports_unchanged_iff (importMap : ImportMap)
  (statements : list Statement) :
  generateImports importMap statements = statements
  <-> Forall (fun impo => eligible impo = false) (map_values importMap).
Proof.
  rewrite <- filter_nil_iff. split.
  - intros H. apply (f_equal (@length _)) in H.
    rewrite generateImports_length in H.
    destruct (filter eligible (map_values importMap)); [reflexivity|].
    simpl in H. lia.
  - intros H. apply filter_nil_iff in H. unfold generateImports.
    revert statements.
    induction H as [|impo rest Himpo _ IH]; intros statements; simpl.
    + reflexivity.
    + rewrite eligible_false by assumption. apply IH.
Qed.

Lemma map_get_In (k : string) (m : ImportMap) (impo : TypeImport) :
  map_get k m = Some impo -> In impo (map_values m).
Proof.
  unfold map_values. induction m as [|[k' v] m IH]; simpl; [discriminate|].
  destruct (String.eqb k k'); [intros [= ->]; now left | auto].
Qed.

(** After a tracked root has been serialized, its record is the one it
    was, marked as referenced. *)
Lemma serializeTypeReference_marks (typeName : EntityName)
  (impo : TypeImport) (m m' : ImportMap) (e : Expression) :
  map_get (getRootNameOfEntityName typeName) m = Some impo ->
  serializeTypeReference typeName m = Ok (e, m') ->
  map_get (getRootNameOfEntityName typeName) m' = Some (set_referenced impo)
  /\ (isCommonJS = false \/ isNamespace impo = true ->
      e = nameAsExpr typeName (localName impo)).
Proof.
  intros Hget. unfold serializeTypeReference.
  destruct isCommonJS.
  - unfold bind at 1, importMap_get. rewrite Hget.
    unfold bind at 1, mark_referenced, importMap_set.
    destruct (isNamespace impo) eqn:Hns; cbn [negb].
    + unfold bind, assureTypeAvailable, bind, importMap_get, mark_referenced,
        importMap_set, ret.
      rewrite map_get_set_same. intros [= <- <-].
      rewrite map_get_set_same. now split.
    + unfold lift. destruct (propertyPrepend _ _); [|discriminate].
      intros [= <- <-]. rewrite map_get_set_same.
      split; [reflexivity|]. intros [H|H]; discriminate.
  - unfold bind, assureTypeAvailable, bind, importMap_get, mark_referenced,
      importMap_set, ret.
    rewrite Hget. intros [= <- <-]. rewrite map_get_set_same. now split.
Qed.

(** X7: when a type reference whose root is a tracked import is
    serialized, outside CommonJS or for a namespace import, the expression
    is the reference with the record's alias as its root, and import
    synthesis on the map the serializer leaves adds an import statement
    that binds exactly that alias and names the module of the record's
    original import statement. *)
Theorem alias_is_imported (typeName : EntityName) (extended : bool)
  (impo : TypeImport) (importMap importMap' : ImportMap) (e : Expression)
  (statements : list Statement) :
  map_get (getRootNameOfEntityName typeName) importMap = Some impo ->
  isCommonJS = false \/ isNamespace impo = true ->
  serializeTypeRef (Some (TypeReferenceNode typeName)) extended importMap
  = Ok (e, importMap') ->
  e = nameAsExpr typeName (localName impo)
  /\ exists d,
       In (ImportStatement d) (generateImports importMap' statements)
       /\ boundNames d = [localName impo]
       /\ moduleSpecifier d = moduleSpecifier (importDeclaration impo).
Proof.
  intros Hget Hkind Hrun. simpl in Hrun.
  destruct (serializeTypeReference_marks _ _ _ _ _ Hget Hrun) as [Hm' He].
  split; [now apply He|].
  exists (ownedImpo (set_referenced impo)). split; [|split].
  - unfold generateImports. apply fold_generateImport_In. left.
    exists (set_referenced impo). split; [|split; [|reflexivity]].
    + eapply map_get_In. eassumption.
    + unfold eligible. simpl.
      destruct Hkind as [-> | ->]; [reflexivity|].
      now destruct isCommonJS.
  - exact (ownedImpo_boundNames (set_referenced impo)).
  - reflexivity.
Qed.

(** ** Further properties of the visitor *)

(** The names for which the visitor makes a record at an import
    declaration: those of the named bindings, or the namespace name; the
    default name is not among them. *)
Definition trackedNames (node : ImportDeclaration) : list string :=
  match importClause node with
  | Some clause =>
      match namedBindings clause with
      | Some (NamedImports elements) => map spec_name elements
      | Some (NamespaceImport text) => [text]
      | None => []
      end
  | None => []
  end.

(** The import declaration is a namespace import. *)
Definition importsNamespace (node : ImportDeclaration) : bool :=
  match importClause node with
  | Some clause =>
      match namedBindings clause with
      | Some (NamespaceImport _) => true
      | _ => false
      end
  | None => false
  end.

(** What a lookup of the name [x] finds after the visit of [node]. *)
Definition freshRecordOf (node : ImportDeclaration) (x : string)
  (r : TypeImport) : Prop :=
  name r = x /\ refName r = x
  /\ modulePath r = moduleSpecifier node
  /\ importDeclaration r = node
  /\ referenced r = None
  /\ isNamespace r = importsNamespace node.

Lemma setNamedImports_lookup (node : ImportDeclaration)
  (elements : list ImportSpecifier) (x : string) (m m' : ImportMap)
  (u : unit) :
  setNamedImports node elements m = Ok (u, m') ->
  In x (map spec_name elements) ->
  exists r,
    map_get x m' = Some r
    /\ name r = x /\ refName r = x
    /\ modulePath r = moduleSpecifier node
    /\ importDeclaration r = node
    /\ referenced r = None
    /\ isNamespace r = false.
Proof.
  revert m. induction elements as [|binding rest IH]; intros m; simpl;
    [intros _ []|].
  unfold bind, importMap_set. intros Hrun Hin.
  destruct (in_dec string_dec x (map spec_name rest)) as [Hrest|Hrest].
  - now apply (IH _ Hrun).
  - destruct Hin as [<- | Hin]; [|contradiction].
    exists (namedImportRecord node binding).
    rewrite (setNamedImports_other _ _ _ _ _ _ Hrun Hrest).
    rewrite map_get_set_same. repeat split.
Qed.

(** X8: after the visit of an import declaration, looking up one of its
    named bindings or its namespace name finds a record of that
    declaration, with its module path, not yet referenced, whatever
    record the name had before; every other name, the declaration's
    default name included, finds what it found before. *)
Theorem visitImportDeclaration_lookup (node : ImportDeclaration)
  (x : string) (importMap importMap' : ImportMap) (u : unit) :
  visitImportDeclaration node importMap = Ok (u, importMap') ->
  (In x (trackedNames node) ->
   exists r, map_get x importMap' = Some r /\ freshRecordOf node x r)
  /\ (~ In x (trackedNames node) ->
      map_get x importMap' = map_get x importMap).
Proof.
  intros Hrun. split.
  - revert Hrun.
    unfold visitImportDeclaration, trackedNames, freshRecordOf,
      importsNamespace.
    destruct (importClause node) as [clause|]; [|intros _ []].
    destruct (namedBindings clause) as [[elements|text]|]; [| |intros _ []].
    + intros Hrun Hin.
      destruct (setNamedImports_lookup _ _ _ _ _ _ Hrun Hin)
        as (r & Hr & Hprops).
      exists r. split; [assumption | exact Hprops].
    + unfold importMap_set. intros [= _ <-] [<- | []].
      exists (namespaceImportRecord node text).
      rewrite map_get_set_same. repeat split.
  - intros Hnot. apply (visitImportDeclaration_other _ _ _ _ _ Hrun).
    unfold trackedNames in Hnot.
    destruct (importClause node) as [clause|]; [|trivial].
    destruct (namedBindings clause) as [[elements|text]|]; [| |trivial].
    + assumption.
    + simpl in Hnot. tauto.
Qed.

(** The decorators [extra] hold the flags decorator. *)
Definition holdsFlags (extra : list Decorator) : Prop :=
  exists fl, In (metadataDecorator "rt:f" (FlagString fl)) extra.

(** What the visitor does to a tree, as a relation between the tree it is
    given and the tree it returns; [E] is what is known of the decorators
    it attaches to one declaration. *)
Section Attached.

Variable E : list Decorator -> Prop.

(** [attachedMember R member member']: [member'] is [member] with its
    children related by [R] one by one, and, when it is a property or a
    method, with decorators put after those it had; nothing else is
    changed. *)
Inductive attachedMember (R : Node -> Node -> Prop)
  : ClassElement -> ClassElement -> Prop :=
| attached_property p extra children children' :
    E extra ->
    Forall2 R children children' ->
    attachedMember R (PropertyMember p children)
      (PropertyMember
         {| property_decorators := property_decorators p ++ extra;
            property_modifiers := property_modifiers p;
            property_name := property_name p;
            property_type := property_type p |}
         children')
| attached_method m extra children children' :
    E extra ->
    Forall2 R children children' ->
    attachedMember R (MethodMember m children)
      (MethodMember
         {| method_decorators := method_decorators m ++ extra;
            method_modifiers := method_modifiers m;
            method_name := method_name m;
            method_parameters := method_parameters m;
            method_type := method_type m |}
         children')
| attached_constructor c children children' :
    Forall2 R children children' ->
    attachedMember R (ConstructorMember c children)
      (ConstructorMember c children')
| attached_other_member text children children' :
    Forall2 R children children' ->
    attachedMember R (OtherMember text children)
      (OtherMember text children').

(** The same for a class declaration: it keeps its name and modifiers,
    gets decorators after those it had, and has its children and its
    members related one by one. *)
Inductive attachedClass (R : Node -> Node -> Prop)
  : ClassDeclaration -> ClassDeclaration -> Prop :=
| attached_class c extra children' members' :
    E extra ->
    Forall2 R (class_children c) children' ->
    Forall2 (attachedMember R) (members c) members' ->
    attachedClass R c
      {| class_decorators := class_decorators c ++ extra;
         class_modifiers := class_modifiers c;
         class_name := class_name c;
         class_children := children';
         members := members' |}.

(** The same for the nodes below a statement: a class expression or an
    object literal gets no decorator itself. *)
Inductive attachedNode : Node -> Node -> Prop :=
| attached_class_node c c' :
    attachedClass attachedNode c c' ->
    attachedNode (ClassNode c) (ClassNode c')
| attached_members_node text children children' members members' :
    Forall2 attachedNode children children' ->
    Forall2 (attachedMember attachedNode) members members' ->
    attachedNode (MembersNode text children members)
      (MembersNode text children' members')
| attached_other_node text children children' :
    Forall2 attachedNode children children' ->
    attachedNode (OtherNode text children) (OtherNode text children').

(** The same for a statement: an import statement and the runtime helper
    are as they were. *)
Inductive attached : Statement -> Statement -> Prop :=
| attached_import d :
    attached (ImportStatement d) (ImportStatement d)
| attached_class_statement c c' :
    attachedClass attachedNode c c' ->
    attached (ClassStatement c) (ClassStatement c')
| attached_helper :
    attached RtHelper RtHelper
| attached_container body body' :
    Forall2 attached body body' ->
    attached (Container body) (Container body')
| attached_other_statement text children children' :
    Forall2 attachedNode children children' ->
    attached (OtherStatement text children) (OtherStatement text children').

End Attached.

Lemma mapM_Forall2 {A B} (g : A -> M B) (R : A -> B -> Prop) (l : list A) :
  Forall (fun x => forall m y m', g x m = Ok (y, m') -> R x y) l ->
  forall m ys m', mapM g l m = Ok (ys, m') -> Forall2 R l ys.
Proof.
  induction 1 as [|x xs Hx _ IH]; intros m ys m'; simpl.
  - intros [= <- _]. constructor.
  - unfold bind at 1. destruct (g x m) as [[y m1]|e] eqn:E; [|discriminate].
    unfold bind at 1.
    destruct (mapM g xs m1) as [[ys' m2]|e] eqn:E'; [|discriminate].
    intros [= <- _]. constructor; [eapply Hx; eassumption|].
    eapply IH; eassumption.
Qed.

Lemma extractPropertyMetadata_flags (property : PropertyDeclaration)
  (m m' : ImportMap) (decs : list Decorator) :
  extractPropertyMetadata property m = Ok (decs, m') -> holdsFlags decs.
Proof.
  unfold extractPropertyMetadata, bind at 1.
  destruct (extractTypeMetadata _ _ m) as [[tdecs m1]|e]; [|discriminate].
  intros [= <- _]. eexists. apply in_or_app. right. left. reflexivity.
Qed.

Lemma extractClassMetadata_flags (klass : ClassDeclaration)
  (m m' : ImportMap) (decs : list Decorator) :
  extractClassMetadata klass m = Ok (decs, m') -> holdsFlags decs.
Proof.
  unfold extractClassMetadata, bind at 1.
  destruct (match find_constructor (members klass) with
            | Some constructor =>
                extractParamsMetadata (constructor_parameters constructor)
            | None => ret []
            end m) as [[pdecs m1]|e]; [|discriminate].
  intros [= <- _]. eexists. apply in_or_app. right. left. reflexivity.
Qed.

Lemma extractMethodMetadata_flags (method : MethodDeclaration)
  (m m' : ImportMap) (decs : list Decorator) :
  extractMethodMetadata method m = Ok (decs, m') -> holdsFlags decs.
Proof.
  unfold extractMethodMetadata, bind at 1.
  destruct (extractParamsMetadata (method_parameters method) m)
    as [[params m1]|e]; [|discriminate].
  assert (Hin : forall tail,
             holdsFlags
               (((if truthy emitStandardMetadata
                  then [metadataDecorator "design:type"
                          (literalNode (Identifier "Function"))]
                  else [])
                 ++ params
                 ++ [metadataDecorator "rt:f"
                       (FlagString
                          (F_METHOD ++ getVisibility (method_modifiers method)
                             ++ isAbstract (method_modifiers method))%string)])
                ++ tail)).
  { intros tail. eexists. apply in_or_app. left. apply in_or_app. right.
    apply in_or_app. right. left. reflexivity. }
  destruct (method_type method) as [ty|].
  - unfold bind at 1.
    destruct (serializeTypeRef (Some ty) true m1) as [[e1 m2]|e]; [|discriminate].
    unfold bind at 1.
    destruct (extractTypeMetadata (Some ty) "returntype" m2)
      as [[tdecs m3]|e]; [|discriminate].
    intros [= <- _]. apply Hin.
  - destruct (truthy emitStandardMetadata) eqn:Et; intros [= <- _].
    + rewrite <- app_assoc. apply Hin.
    + apply Hin.
Qed.

(** The visitor attaches what the extractors return. *)
Section Attaches.

Variable E : list Decorator -> Prop.
Hypothesis E_class : forall klass m m' decs,
    extractClassMetadata klass m = Ok (decs, m') -> E decs.
Hypothesis E_property : forall property m m' decs,
    extractPropertyMetadata property m = Ok (decs, m') -> E decs.
Hypothesis E_method : forall method m m' decs,
    extractMethodMetadata method m = Ok (decs, m') -> E decs.

Lemma visitClassElementWith_attaches (visit : Node -> M Node)
  (R : Node -> Node -> Prop) (node node' : ClassElement) (m m' : ImportMap) :
  Forall (fun x => forall m y m', visit x m = Ok (y, m') -> R x y)
    (memberChildren node) ->
  visitClassElementWith visit node m = Ok (node', m') ->
  attachedMember E R node node'.
Proof.
  destruct node as [p ch | md ch | c ch | text ch]; simpl; intros Hch.
  - unfold bind at 1.
    destruct (extractPropertyMetadata p m) as [[decs m1]|e] eqn:E1;
      [|discriminate].
    unfold bind at 1.
    destruct (mapM visit ch m1) as [[ch' m2]|e] eqn:E2; [|discriminate].
    intros [= <- _]. constructor.
    + eapply E_property; eassumption.
    + eapply mapM_Forall2; eassumption.
  - unfold bind at 1.
    destruct (extractMethodMetadata md m) as [[decs m1]|e] eqn:E1;
      [|discriminate].
    unfold bind at 1.
    destruct (mapM visit ch m1) as [[ch' m2]|e] eqn:E2; [|discriminate].
    intros [= <- _]. constructor.
    + eapply E_method; eassumption.
    + eapply mapM_Forall2; eassumption.
  - unfold bind at 1.
    destruct (mapM visit ch m) as [[ch' m2]|e] eqn:E2; [|discriminate].
    intros [= <- _]. constructor. eapply mapM_Forall2; eassumption.
  - unfold bind at 1.
    destruct (mapM visit ch m) as [[ch' m2]|e] eqn:E2; [|discriminate].
    intros [= <- _]. constructor. eapply mapM_Forall2; eassumption.
Qed.

Lemma members_attach (visit : Node -> M Node) (R : Node -> Node -> Prop)
  (l l' : list ClassElement) (m m' : ImportMap) :
  Forall (fun member =>
            Forall (fun x => forall m y m', visit x m = Ok (y, m') -> R x y)
              (memberChildren member)) l ->
  mapM (visitClassElementWith visit) l m = Ok (l', m') ->
  Forall2 (attachedMember E R) l l'.
Proof.
  intros H. apply mapM_Forall2. eapply Forall_impl; [|exact H].
  intros member Hch m0 y m0'. now apply visitClassElementWith_attaches.
Qed.

Lemma visitClassDeclarationWith_attaches (visit : Node -> M Node)
  (R : Node -> Node -> Prop) (node node' : ClassDeclaration)
  (m m' : ImportMap) :
  Forall (fun x => forall m y m', visit x m = Ok (y, m') -> R x y)
    (class_children node) ->
  Forall (fun member =>
            Forall (fun x => forall m y m', visit x m = Ok (y, m') -> R x y)
              (memberChildren member)) (members node) ->
  visitClassDeclarationWith visit node m = Ok (node', m') ->
  attachedClass E R node node'.
Proof.
  intros Hch Hms. unfold visitClassDeclarationWith, bind at 1.
  destruct (extractClassMetadata node m) as [[decs m1]|e] eqn:E1;
    [|discriminate].
  unfold bind at 1.
  destruct (mapM visit (class_children node) m1) as [[ch' m2]|e] eqn:E2;
    [|discriminate].
  unfold bind at 1.
  destruct (mapM (visitClassElementWith visit) (members node) m2)
    as [[ms' m3]|e] eqn:E3; [|discriminate].
  intros [= <- _]. constructor.
  - eapply E_class; eassumption.
  - eapply mapM_Forall2; eassumption.
  - eapply members_attach; eassumption.
Qed.

Lemma visitNode_attaches (node : Node) :
  forall m node' m',
    visitNode node m = Ok (node', m') -> attachedNode E node node'.
Proof.
  induction node as [c Hch Hms | text ch ms Hch Hms | text ch Hch]
    using Node_induction; intros m node' m'; simpl.
  - unfold bind at 1.
    destruct (visitClassDeclarationWith visitNode c m) as [[c' m1]|e] eqn:E1;
      [|discriminate].
    intros [= <- _]. constructor.
    eapply visitClassDeclarationWith_attaches; eassumption.
  - unfold bind at 1.
    destruct (mapM visitNode ch m) as [[ch' m1]|e] eqn:E1; [|discriminate].
    unfold bind at 1.
    destruct (mapM (visitClassElementWith visitNode) ms m1)
      as [[ms' m2]|e] eqn:E2; [|discriminate].
    intros [= <- _]. constructor.
    + eapply mapM_Forall2; eassumption.
    + eapply members_attach; eassumption.
  - unfold bind at 1.
    destruct (mapM visitNode ch m) as [[ch' m1]|e] eqn:E1; [|discriminate].
    intros [= <- _]. constructor. eapply mapM_Forall2; eassumption.
Qed.

Lemma visitNodes_attach (l l' : list Node) (m m' : ImportMap) :
  mapM visitNode l m = Ok (l', m') -> Forall2 (attachedNode E) l l'.
Proof.
  apply mapM_Forall2, Forall_forall. intros x _. apply visitNode_attaches.
Qed.

Lemma visitClassDeclaration_attaches (node node' : ClassDeclaration)
  (m m' : ImportMap) :
  visitClassDeclaration node m = Ok (node', m') ->
  attachedClass E (attachedNode E) node node'.
Proof.
  apply visitClassDeclarationWith_attaches; apply Forall_forall.
  - intros x _. apply visitNode_attaches.
  - intros member _. apply Forall_forall. intros x _.
    apply visitNode_attaches.
Qed.

Lemma visitor_attaches_statement :
  forall (node : Statement) (m : ImportMap) (node' : Statement)
         (m' : ImportMap),
    visitor node m = Ok (node', m') -> attached E node node'.
Proof.
  fix IH 1. intros [d | c | | body | text children] m node' m'; simpl.
  - unfold bind.
    destruct (visitImportDeclaration d m) as [[u m1]|e]; [|discriminate].
    intros [= <- _]. constructor.
  - unfold bind at 1.
    destruct (visitClassDeclaration c m) as [[c' m1]|e] eqn:E1;
      [|discriminate].
    intros [= <- _]. constructor.
    eapply visitClassDeclaration_attaches; eassumption.
  - intros [= <- _]. constructor.
  - unfold bind at 1.
    destruct (mapM visitor body m) as [[body' m1]|e] eqn:E1; [|discriminate].
    intros [= <- _]. constructor.
    refine (mapM_Forall2 visitor (attached E) body _ m body' m1 E1).
    clear E1. induction body as [|s rest IHrest]; constructor;
      [apply IH | exact IHrest].
  - unfold bind at 1.
    destruct (mapM visitNode children m) as [[children' m1]|e] eqn:E1;
      [|discriminate].
    intros [= <- _]. constructor. eapply visitNodes_attach; eassumption.
Qed.

Lemma visitor_attaches_statements (l l' : list Statement)
  (m m' : ImportMap) :
  mapM visitor l m = Ok (l', m') -> Forall2 (attached E) l l'.
Proof.
  apply mapM_Forall2, Forall_forall. intros x _.
  apply visitor_attaches_statement.
Qed.

End Attaches.

(** X9: the visitor only attaches, and it attaches at every depth: a
    statement it returns is the statement it was given in which each class
    declaration, each property declaration and each method declaration,
    wherever it stands (a member of a class declaration or of a class
    expression, a method of an object literal, a class declared in a
    body), has decorators added after those it had, the flags decorator
    among them; names, modifiers, types, parameters and import statements
    are unchanged, a class expression gets no decorator itself, and no
    statement, member or child is dropped, added or moved. *)
Theorem visitor_attaches (node node' : Statement) (importMap importMap' :
  ImportMap) :
  visitor node importMap = Ok (node', importMap') ->
  attached holdsFlags node node'.
Proof.
  apply (visitor_attaches_statement holdsFlags extractClassMetadata_flags
           extractPropertyMetadata_flags extractMethodMetadata_flags).
Qed.

(** X10: when a source file is processed, the statements of the result
    are the runtime helper followed by the statements of the file, each
    with the decorators attached to the declarations in it, in their
    order, with nothing between them but added import statements. *)
Theorem rttiTransformer_keeps_statements (sourceFile result : SourceFile) :
  rttiTransformer sourceFile = Ok result ->
  exists visited,
    Forall2 (attached holdsFlags) (statements sourceFile) visited
    /\ keptIn (RtHelper :: visited) (statements result)
    /\ forall s, In s (statements result) ->
                 In s (RtHelper :: visited)
                 \/ exists d, s = ImportStatement d /\ pos d = (-1)%Z.
Proof.
  unfold rttiTransformer. cbn [statements mapM visitor]. unfold bind at 1.
  unfold ret at 1. unfold bind at 1.
  destruct (mapM visitor (statements sourceFile) [])
    as [[visited m]|e] eqn:E; [|discriminate].
  unfold ret. intros [= <-]. exists visited. cbn [statements].
  split; [|split].
  - apply (visitor_attaches_statements holdsFlags extractClassMetadata_flags
             extractPropertyMetadata_flags extractMethodMetadata_flags
             _ _ _ _ E).
  - apply fold_generateImport_keptIn.
  - intros s Hs. apply fold_generateImport_In in Hs.
    destruct Hs as [(impo & _ & _ & ->) | Hs]; [right | now left].
    eexists. split; reflexivity.
Qed.

(** ** Further properties of the extractors *)

Lemma evalM_bind {A B} (c : M A) (k : A -> M B) (m : ImportMap) :
  evalM (bind c k) m
  = match c m with
    | Ok (a, m') => evalM (k a) m'
    | Throw e => Throw e
    end.
Proof. unfold evalM, bind. now destruct (c m) as [[a m']|e]. Qed.

(** The value of a computation that only marks, from a map holding the
    same imports. *)
Lemma marksOnly_value {A} (c : M A) (m0 m : ImportMap) :
  marksOnly c -> sameImports m m0 -> evalM c m = evalM c m0.
Proof. intros [_ H] Hs. now apply H. Qed.

Lemma extractTypeMetadata_value (type : option TypeNode)
  (standardName : string) (m : ImportMap) :
  evalM (extractTypeMetadata type standardName) m
  = match evalM (serializeTypeRef type true) m with
    | Ok e =>
        Ok (metadataDecorator "rt:t" (literalNode (forwardRef e))
            :: if truthy emitStandardMetadata
               then [metadataDecorator ("design:" ++ standardName)%string
                       (literalNode (coarseOf type e))]
               else [])
    | Throw err => Throw err
    end.
Proof.
  unfold extractTypeMetadata. rewrite evalM_bind.
  destruct (evalM (serializeTypeRef type true) m) as [e|err] eqn:Hv.
  - apply evalM_Ok in Hv. destruct Hv as [m1 Hrun]. rewrite Hrun.
    destruct (truthy emitStandardMetadata); [|reflexivity].
    rewrite evalM_bind.
    assert (Hc : evalM (serializeTypeRef type false) m
                 = Ok (coarseOf type e)).
    { apply coarse_of_extended. apply evalM_Ok. now exists m1. }
    assert (Hs : sameImports m1 m).
    { eapply (proj1 (marksOnly_serializeTypeRef type true)); eassumption. }
    destruct (marksOnly_run _ m m1 _ (marksOnly_serializeTypeRef type false)
                Hs Hc) as (m2 & -> & _).
    reflexivity.
  - unfold evalM in Hv.
    destruct (serializeTypeRef type true m) as [[e m1]|err']; [discriminate|].
    now injection Hv as ->.
Qed.

(** X11: the metadata of a property is decided by the extended form of
    its type: when that cannot be serialized the extractor throws the same
    error; otherwise it returns the forward reference to it under [rt:t],
    then, when the standard metadata is on, its coarse counterpart under
    [design:type], then the flags of the property under [rt:f]. *)
Theorem extractPropertyMetadata_value (property : PropertyDeclaration)
  (importMap : ImportMap) :
  evalM (extractPropertyMetadata property) importMap
  = match evalM (serializeTypeRef (property_type property) true) importMap with
    | Ok e =>
        Ok ([metadataDecorator "rt:t" (literalNode (forwardRef e))]
            ++ (if truthy emitStandardMetadata
                then [metadataDecorator "design:type"
                        (literalNode (coarseOf (property_type property) e))]
                else [])
            ++ [metadataDecorator "rt:f"
                  (FlagString
                     (F_PROPERTY ++ getVisibility (property_modifiers property)
                        ++ isReadOnly (property_modifiers property))%string)])
    | Throw err => Throw err
    end.
Proof.
  unfold extractPropertyMetadata. rewrite evalM_bind.
  pose proof (extractTypeMetadata_value (property_type property) "type"
                importMap) as H.
  unfold evalM at 1 in H.
  destruct (extractTypeMetadata (property_type property) "type" importMap)
    as [[decs m1]|err].
  - destruct (evalM (serializeTypeRef (property_type property) true) importMap);
      [|discriminate].
    injection H as ->. reflexivity.
  - destruct (evalM (serializeTypeRef (property_type property) true) importMap);
      [discriminate|].
    now injection H as ->.
Qed.

(** X12: for a method with a return-type annotation the extractor
    throws when the parameter metadata does, and otherwise when the
    extended form of the annotation cannot be serialized, with the same
    error; when both succeed it returns the parameter metadata, the
    flags, the forward reference to the annotation under [rt:t] and, when
    the standard metadata is on, its coarse counterpart under
    [design:returntype]. *)
Theorem extractMethodMetadata_annotated (method : MethodDeclaration)
  (ty : TypeNode) (importMap : ImportMap) :
  method_type method = Some ty ->
  evalM (extractMethodMetadata method) importMap
  = match evalM (extractParamsMetadata (method_parameters method)) importMap with
    | Throw err => Throw err
    | Ok params =>
        match evalM (serializeTypeRef (Some ty) true) importMap with
        | Throw err => Throw err
        | Ok e =>
            Ok (((if truthy emitStandardMetadata
                  then [metadataDecorator "design:type"
                          (literalNode (Identifier "Function"))]
                  else [])
                 ++ params
                 ++ [metadataDecorator "rt:f"
                       (FlagString
                          (F_METHOD ++ getVisibility (method_modifiers method)
                             ++ isAbstract (method_modifiers method))%string)])
                ++ metadataDecorator "rt:t" (literalNode (forwardRef e))
                   :: (if truthy emitStandardMetadata
                       then [metadataDecorator "design:returntype"
                               (literalNode (coarseOf (Some ty) e))]
                       else []))
        end
    end.
Proof.
  intros Hty. unfold extractMethodMetadata. rewrite evalM_bind, Hty.
  unfold evalM at 2.
  destruct (extractParamsMetadata (method_parameters method) importMap)
    as [[params m1]|err] eqn:Hp; [|reflexivity].
  assert (Hs1 : sameImports m1 importMap).
  { eapply (proj1 (marksOnly_extractParamsMetadata _)); eassumption. }
  rewrite evalM_bind.
  rewrite <- (marksOnly_value _ importMap m1
                (marksOnly_serializeTypeRef (Some ty) true) Hs1).
  unfold evalM at 2.
  destruct (serializeTypeRef (Some ty) true m1) as [[e m2]|err] eqn:Hr;
    [|reflexivity].
  assert (Hs2 : sameImports m2 m1).
  { eapply (proj1 (marksOnly_serializeTypeRef (Some ty) true)); eassumption. }
  rewrite evalM_bind.
  pose proof (extractTypeMetadata_value (Some ty) "returntype" m2) as H.
  rewrite (marksOnly_value _ m1 m2
             (marksOnly_serializeTypeRef (Some ty) true) Hs2) in H.
  assert (Hv : evalM (serializeTypeRef (Some ty) true) m1 = Ok e).
  { apply evalM_Ok. now exists m2. }
  rewrite Hv in H. unfold evalM at 1 in H.
  destruct (extractTypeMetadata (Some ty) "returntype" m2)
    as [[tdecs m3]|err]; [|discriminate].
  injection H as ->. reflexivity.
Qed.

(** A member that is not a constructor declaration. *)
Definition notConstructor (member : ClassElement) : Prop :=
  match member with
  | ConstructorMember _ _ => False
  | _ => True
  end.

Lemma find_constructor_first (pre post : list ClassElement)
  (c : ConstructorDeclaration) (body : list Node) :
  Forall notConstructor pre ->
  find_constructor (pre ++ ConstructorMember c body :: post) = Some c.
Proof.
  induction 1 as [|x pre Hx _ IH]; simpl; [reflexivity|].
  destruct x; simpl in Hx; [assumption | assumption | contradiction
                           | assumption].
Qed.

Lemma find_constructor_none (members : list ClassElement) :
  Forall notConstructor members -> find_constructor members = None.
Proof.
  induction 1 as [|x rest Hx _ IH]; simpl; [reflexivity|].
  destruct x; simpl in Hx; [assumption | assumption | contradiction
                           | assumption].
Qed.

(** X13: the metadata of a class describes the parameters of the first
    constructor declaration among its members, whatever members, further
    constructor declarations included, come after it: the extractor
    returns that constructor's parameter metadata followed by the flags
    of the class, and throws exactly when that parameter metadata does. *)
Theorem extractClassMetadata_first_constructor (klass : ClassDeclaration)
  (pre post : list ClassElement) (c : ConstructorDeclaration)
  (body : list Node) (importMap : ImportMap) :
  members klass = pre ++ ConstructorMember c body :: post ->
  Forall notConstructor pre ->
  extractClassMetadata klass importMap
  = match extractParamsMetadata (constructor_parameters c) importMap with
    | Ok (params, importMap') =>
        Ok (params
            ++ [metadataDecorator "rt:f"
                  (FlagString
                     (F_CLASS ++ getVisibility (class_modifiers klass)
                        ++ isAbstract (class_modifiers klass))%string)],
            importMap')
    | Throw err => Throw err
    end.
Proof.
  intros Hm Hpre. unfold extractClassMetadata, bind.
  rewrite Hm, (find_constructor_first pre post c body Hpre).
  now destruct (extractParamsMetadata (constructor_parameters c) importMap)
    as [[params m']|err].
Qed.

(** X14: a class without a constructor declaration gets the flags of the
    class and nothing else; extracting them cannot fail and leaves the
    import map as it is, whatever the types of its members. *)
Theorem extractClassMetadata_no_constructor (klass : ClassDeclaration)
  (importMap : ImportMap) :
  Forall notConstructor (members klass) ->
  extractClassMetadata klass importMap
  = Ok ([metadataDecorator "rt:f"
           (FlagString
              (F_CLASS ++ getVisibility (class_modifiers klass)
                 ++ isAbstract (class_modifiers klass))%string)],
        importMap).
Proof.
  intros H. unfold extractClassMetadata, bind.
  now rewrite (find_constructor_none _ H).
Qed.

(** X15: when the types of all parameters serialize, the parameter
    metadata is the [rt:p] decorator followed, when the standard metadata
    is on, by [design:paramtypes] with the coarse form of each parameter's
    type, one per parameter in declaration order, and by nothing when it
    is off; the import map it leaves holds the same imports. *)
Theorem extractParamsMetadata_paramtypes
  (parameters : list ParameterDeclaration) (importMap : ImportMap) :
  (forall p, In p parameters ->
     exists c e,
       evalM (serializeTypeRef (param_type p) false) importMap = Ok c
       /\ evalM (serializeTypeRef (param_type p) true) importMap = Ok e) ->
  exists metas coarse importMap',
    extractParamsMetadata parameters importMap
    = Ok (metadataDecorator "rt:p" (serializedParams metas)
          :: (if truthy emitStandardMetadata
              then [metadataDecorator "design:paramtypes"
                      (literalNodes coarse)]
              else []),
          importMap')
    /\ Forall2 (fun p c =>
                  evalM (serializeTypeRef (param_type p) false) importMap
                  = Ok c)
         parameters coarse
    /\ sameImports importMap' importMap.
Proof.
  intros Hok.
  destruct (mapM_extractParam parameters importMap Hok importMap
              (sameImports_refl _)) as (pairs & m' & Hrun & Hs & Hall).
  exists (map snd pairs), (map fst pairs), m'. split; [|split].
  - unfold extractParamsMetadata, bind. rewrite Hrun.
    now destruct (truthy emitStandardMetadata).
  - clear Hrun Hok.
    induction Hall as [|p cd ps cds [Hc _] _ IH]; simpl;
      [constructor | constructor; assumption].
  - assumption.
Qed.

Lemma coarse_throws_as_extended (typeNode : option TypeNode)
  (m : ImportMap) (err : Exn) :
  evalM (serializeTypeRef typeNode false) m = Throw err ->
  evalM (serializeTypeRef typeNode true) m = Throw err.
Proof.
  destruct typeNode as [[typeName | elementType | k]|]; simpl.
  - trivial.
  - discriminate.
  - destruct k; discriminate.
  - discriminate.
Qed.

Lemma mapM_app {A B} (g : A -> M B) (l1 l2 : list A) (m : ImportMap) :
  mapM g (l1 ++ l2) m
  = match mapM g l1 m with
    | Ok (ys1, m1) =>
        match mapM g l2 m1 with
        | Ok (ys2, m2) => Ok (ys1 ++ ys2, m2)
        | Throw e => Throw e
        end
    | Throw e => Throw e
    end.
Proof.
  revert m. induction l1 as [|x l1 IH]; intros m; simpl.
  - unfold ret. now destruct (mapM g l2 m) as [[ys2 m2]|e].
  - unfold bind at 1 3. destruct (g x m) as [[y m1]|e]; [|reflexivity].
    unfold bind at 1 2. rewrite IH.
    destruct (mapM g l1 m1) as [[ys1 m2]|e]; [|reflexivity].
    unfold ret. destruct (mapM g l2 m2) as [[ys2 m3]|e]; reflexivity.
Qed.

(** X16: the parameter metadata fails with the error of the first
    parameter whose type cannot be serialized in extended form: when the
    parameters before it serialize and it throws, the extractor throws
    that error, whatever parameters follow. *)
Theorem extractParamsMetadata_first_failure
  (pre post : list ParameterDeclaration) (p : ParameterDeclaration)
  (importMap : ImportMap) (err : Exn) :
  (forall q, In q pre ->
     exists e, evalM (serializeTypeRef (param_type q) true) importMap = Ok e) ->
  evalM (serializeTypeRef (param_type p) true) importMap = Throw err ->
  extractParamsMetadata (pre ++ p :: post) importMap = Throw err.
Proof.
  intros Hpre Hp.
  assert (Hok : forall q, In q pre ->
     exists c e,
       evalM (serializeTypeRef (param_type q) false) importMap = Ok c
       /\ evalM (serializeTypeRef (param_type q) true) importMap = Ok e).
  { intros q Hq. destruct (Hpre q Hq) as [e He].
    exists (coarseOf (param_type q) e), e.
    split; [now apply coarse_of_extended | assumption]. }
  destruct (mapM_extractParam pre importMap Hok importMap
              (sameImports_refl _)) as (pairs & m1 & Hrun & Hs & _).
  assert (Hthrow : extractParam p m1 = Throw err).
  { unfold extractParam, bind.
    destruct (serializeTypeRef (param_type p) false m1) as [[c m2]|err']
      eqn:Hc.
    - assert (Hs2 : sameImports m2 importMap).
      { eapply sameImports_trans; [|exact Hs].
        eapply (proj1 (marksOnly_serializeTypeRef _ false)); eassumption. }
      pose proof (marksOnly_value _ importMap m2
                    (marksOnly_serializeTypeRef (param_type p) true) Hs2) as Hv.
      rewrite Hp in Hv. unfold evalM in Hv.
      destruct (serializeTypeRef (param_type p) true m2) as [[e m3]|err'];
        [discriminate | now injection Hv as ->].
    - assert (Hv : evalM (serializeTypeRef (param_type p) false) m1
                   = Throw err').
      { unfold evalM. now rewrite Hc. }
      rewrite (marksOnly_value _ importMap m1
                 (marksOnly_serializeTypeRef (param_type p) false) Hs) in Hv.
      apply coarse_throws_as_extended in Hv. congruence. }
  unfold extractParamsMetadata, bind. rewrite mapM_app, Hrun.
  simpl. unfold bind at 1. now rewrite Hthrow.
Qed.

(** ** What the extractors do to the import map *)

(** [marksFrom m m']: [m'] holds the records of [m], under the same names
    and in the same order, each either as it was or with [referenced] set
    to [true]. *)
Definition marksFrom (m m' : ImportMap) : Prop :=
  Forall2 (fun kv kv' =>
             fst kv' = fst kv
             /\ (snd kv' = snd kv \/ snd kv' = set_referenced (snd kv)))
    m m'.

(** A computation that changes the import map in no other way. *)
Definition marksForward {A} (c : M A) : Prop :=
  forall m a m', c m = Ok (a, m') -> marksFrom m m'.

Lemma marksFrom_refl (m : ImportMap) : marksFrom m m.
Proof. induction m; constructor; auto. Qed.

Lemma marksFrom_trans (m1 m2 m3 : ImportMap) :
  marksFrom m1 m2 -> marksFrom m2 m3 -> marksFrom m1 m3.
Proof.
  intros H12. revert m3.
  induction H12 as [|a b l1 l2 [Hk Hv] _ IH]; intros m3 H23;
    inversion H23 as [|b' c l2' l3 [Hk' Hv'] Hrest]; subst; constructor.
  - split; [congruence|].
    destruct Hv as [Hv|Hv], Hv' as [Hv'|Hv']; rewrite Hv', Hv; auto.
  - now apply IH.
Qed.

Lemma marksFrom_mark (k : string) (v : TypeImport) (m : ImportMap) :
  map_get k m = Some v -> marksFrom m (map_set k (set_referenced v) m).
Proof.
  induction m as [|[k' v'] m IH]; simpl; [discriminate|].
  destruct (String.eqb k k') eqn:E.
  - intros [= ->]. apply String.eqb_eq in E. subst k'.
    constructor; [simpl; auto | apply marksFrom_refl].
  - intros H. constructor; [simpl; auto | now apply IH].
Qed.

Lemma marksForward_ret {A} (a : A) : marksForward (ret a).
Proof. intros m a' m' [= _ <-]. apply marksFrom_refl. Qed.

Lemma marksForward_throw {A} (e : Exn) : marksForward (@throw A e).
Proof. intros m a m'. discriminate. Qed.

Lemma marksForward_bind {A B} (c : M A) (k : A -> M B) :
  marksForward c -> (forall a, marksForward (k a)) -> marksForward (bind c k).
Proof.
  intros Hc Hk m b m''. unfold bind.
  destruct (c m) as [[a m']|e] eqn:E; [|discriminate].
  intros H. eapply marksFrom_trans; [eapply Hc | eapply Hk]; eassumption.
Qed.

Lemma marksForward_assureTypeAvailable (entityName : EntityName) :
  marksForward (assureTypeAvailable entityName).
Proof.
  intros m a m'.
  unfold assureTypeAvailable, bind, importMap_get, mark_referenced,
    importMap_set, ret.
  destruct (map_get (getRootNameOfEntityName entityName) m) eqn:E;
    intros [= _ <-]; [now apply marksFrom_mark | apply marksFrom_refl].
Qed.

Lemma marksForward_serializeTypeReference (typeName : EntityName) :
  marksForward (serializeTypeReference typeName).
Proof.
  assert (Hns : marksForward (rootName <- assureTypeAvailable typeName ;;
                              ret (nameAsExpr typeName rootName))).
  { apply marksForward_bind;
      [apply marksForward_assureTypeAvailable
      | intros; apply marksForward_ret]. }
  unfold serializeTypeReference. destruct isCommonJS; [|exact Hns].
  intros m a m'. unfold bind at 1, importMap_get.
  destruct (map_get (getRootNameOfEntityName typeName) m) as [impo|] eqn:E.
  - unfold bind at 1, mark_referenced, importMap_set.
    destruct (negb (isNamespace impo)).
    + unfold lift. destruct (propertyPrepend _ _); [|discriminate].
      intros [= _ <-]. now apply marksFrom_mark.
    + intros H.
      apply (marksFrom_trans m
               (map_set (getRootNameOfEntityName typeName)
                  (set_referenced impo) m) m');
        [now apply marksFrom_mark | eapply Hns; exact H].
  - intros [= _ <-]. apply marksFrom_refl.
Qed.

Lemma marksForward_serializeTypeRef (typeNode : option TypeNode)
  (extended : bool) :
  marksForward (serializeTypeRef typeNode extended).
Proof.
  destruct typeNode as [typeNode|]; simpl; [|apply marksForward_ret].
  revert extended.
  induction typeNode as [typeName | elementType IH | k]; intros extended;
    simpl.
  - apply marksForward_serializeTypeReference.
  - destruct extended; [|apply marksForward_ret].
    apply marksForward_bind; [apply IH | intros; apply marksForward_ret].
  - destruct k, extended;
      first [apply marksForward_ret | apply marksForward_throw].
Qed.

Lemma marksForward_mapM {A B} (g : A -> M B) (l : list A) :
  (forall x, marksForward (g x)) -> marksForward (mapM g l).
Proof.
  intros Hg. induction l as [|x xs IH]; simpl.
  - apply marksForward_ret.
  - apply marksForward_bind; [apply Hg | intros y].
    apply marksForward_bind; [apply IH | intros ys]. apply marksForward_ret.
Qed.

(** Composite computations that only mark forward. *)
Ltac forward :=
  repeat first
    [ apply marksForward_ret
    | apply marksForward_throw
    | apply marksForward_serializeTypeRef
    | apply marksForward_bind; [|intros]
    | match goal with
      | |- marksForward (if ?b then _ else _) => destruct b
      | |- marksForward (match ?x with _ => _ end) => destruct x
      end ].

Lemma marksForward_extractParamsMetadata
  (parameters : list ParameterDeclaration) :
  marksForward (extractParamsMetadata parameters).
Proof.
  unfold extractParamsMetadata.
  apply marksForward_bind; [|intros; forward].
  apply marksForward_mapM. intros p. unfold extractParam. forward.
Qed.

Lemma marksForward_extractTypeMetadata (type : option TypeNode)
  (standardName : string) :
  marksForward (extractTypeMetadata type standardName).
Proof. unfold extractTypeMetadata. forward. Qed.

Lemma marksForward_extractPropertyMetadata (property : PropertyDeclaration) :
  marksForward (extractPropertyMetadata property).
Proof.
  unfold extractPropertyMetadata.
  apply marksForward_bind;
    [apply marksForward_extractTypeMetadata | intros; forward].
Qed.

Lemma marksForward_extractMethodMetadata (method : MethodDeclaration) :
  marksForward (extractMethodMetadata method).
Proof.
  unfold extractMethodMetadata.
  apply marksForward_bind;
    [apply marksForward_extractParamsMetadata | intros ps].
  destruct (method_type method).
  - apply marksForward_bind; [apply marksForward_serializeTypeRef|].
    intros _. apply marksForward_bind;
      [apply marksForward_extractTypeMetadata | intros; forward].
  - forward.
Qed.

Lemma marksForward_extractClassMetadata (klass : ClassDeclaration) :
  marksForward (extractClassMetadata klass).
Proof.
  unfold extractClassMetadata. apply marksForward_bind; [|intros; forward].
  destruct (find_constructor (members klass));
    [apply marksForward_extractParamsMetadata | apply marksForward_ret].
Qed.

(** X17: processing a class declaration, with its constructor
    parameters, properties and methods and with every declaration below
    it, changes the import map only by setting [referenced] on records: the records keep their names, their
    order and every other field, none is added or removed, and no
    [referenced] that is set is cleared. *)
Theorem visitClassDeclaration_only_marks (node node' : ClassDeclaration)
  (importMap importMap' : ImportMap) :
  visitClassDeclaration node importMap = Ok (node', importMap') ->
  marksFrom importMap importMap'.
Proof.
  revert importMap node' importMap'.
  change (marksForward (visitClassDeclaration node)).
  apply (walk_visitClassDeclaration (@marksForward) (@marksForward_ret)
           (@marksForward_bind) marksForward_extractClassMetadata
           marksForward_extractPropertyMetadata
           marksForward_extractMethodMetadata).
Qed.

(** ** The standard metadata switch *)

(** The keys of the decorators the transformer makes: its own, and those
    of the standard metadata. *)
Definition ownKey (key : string) : bool :=
  String.eqb key "rt:t" || String.eqb key "rt:p" || String.eqb key "rt:f".

Definition standardKey (key : string) : bool :=
  String.eqb key "design:type" || String.eqb key "design:paramtypes"
  || String.eqb key "design:returntype".

(** [emitted emit d]: [d] is a metadata decorator under one of the
    transformer's own keys, or, when [emit] is true, under one of the
    standard keys. *)
Definition emitted (emit : option bool) (d : Decorator) : bool :=
  match d with
  | metadataDecorator key _ => ownKey key || (truthy emit && standardKey key)
  | UserDecorator _ => false
  end.

Definition allEmitted (emit : option bool) (extra : list Decorator) : Prop :=
  forallb (emitted emit) extra = true.

Lemma allEmitted_app (emit : option bool) (l1 l2 : list Decorator) :
  allEmitted emit l1 -> allEmitted emit l2 -> allEmitted emit (l1 ++ l2).
Proof.
  unfold allEmitted. intros H1 H2. now rewrite forallb_app, H1, H2.
Qed.

Lemma allEmitted_cons (emit : option bool) (d : Decorator)
  (l : list Decorator) :
  emitted emit d = true -> allEmitted emit l -> allEmitted emit (d :: l).
Proof. unfold allEmitted. simpl. now intros -> ->. Qed.

Lemma emitted_standard (key : string) (value : MetadataValue) :
  truthy emitStandardMetadata = true ->
  standardKey key = true ->
  emitted emitStandardMetadata (metadataDecorator key value) = true.
Proof. unfold emitted. intros -> ->. apply Bool.orb_true_r. Qed.

(** The lists the extractors build. *)
Ltac emits :=
  repeat match goal with
    | |- allEmitted _ (_ ++ _) => apply allEmitted_app
    | |- allEmitted _ (_ :: _) => apply allEmitted_cons
    | |- allEmitted _ [] => reflexivity
    | |- allEmitted _ (if ?b then _ else _) => destruct b eqn:?
    | H : allEmitted _ ?l |- allEmitted _ ?l => exact H
    | H : truthy _ = true |- emitted _ (metadataDecorator _ _) = true =>
        first [reflexivity | apply (emitted_standard _ _ H); reflexivity]
    | |- emitted _ (metadataDecorator _ _) = true => reflexivity
    end.

Lemma extractTypeMetadata_emitted (type : option TypeNode)
  (standardName : string) (m m' : ImportMap) (decs : list Decorator) :
  standardKey ("design:" ++ standardName)%string = true ->
  extractTypeMetadata type standardName m = Ok (decs, m') ->
  allEmitted emitStandardMetadata decs.
Proof.
  intros Hk. unfold extractTypeMetadata, bind at 1.
  destruct (serializeTypeRef type true m) as [[e m1]|err]; [|discriminate].
  destruct (truthy emitStandardMetadata) eqn:Et.
  - unfold bind.
    destruct (serializeTypeRef type false m1) as [[c m2]|err]; [|discriminate].
    intros [= <- _]. emits. exact (emitted_standard _ _ Et Hk).
  - intros [= <- _]. emits.
Qed.

Lemma extractParamsMetadata_emitted (parameters : list ParameterDeclaration)
  (m m' : ImportMap) (decs : list Decorator) :
  extractParamsMetadata parameters m = Ok (decs, m') ->
  allEmitted emitStandardMetadata decs.
Proof.
  unfold extractParamsMetadata, bind at 1.
  destruct (mapM extractParam parameters m) as [[metas m1]|err];
    [|discriminate].
  destruct (truthy emitStandardMetadata) eqn:Et; intros [= <- _]; emits.
Qed.

Lemma extractClassMetadata_emitted (klass : ClassDeclaration)
  (m m' : ImportMap) (decs : list Decorator) :
  extractClassMetadata klass m = Ok (decs, m') ->
  allEmitted emitStandardMetadata decs.
Proof.
  unfold extractClassMetadata, bind at 1.
  destruct (match find_constructor (members klass) with
            | Some constructor =>
                extractParamsMetadata (constructor_parameters constructor)
            | None => ret []
            end m) as [[pdecs m1]|e] eqn:E; [|discriminate].
  assert (Hp : allEmitted emitStandardMetadata pdecs).
  { destruct (find_constructor (members klass)).
    - eapply extractParamsMetadata_emitted; eassumption.
    - now injection E as <- _. }
  intros [= <- _]. emits.
Qed.

Lemma extractPropertyMetadata_emitted (property : PropertyDeclaration)
  (m m' : ImportMap) (decs : list Decorator) :
  extractPropertyMetadata property m = Ok (decs, m') ->
  allEmitted emitStandardMetadata decs.
Proof.
  unfold extractPropertyMetadata, bind at 1.
  destruct (extractTypeMetadata (property_type property) "type" m)
    as [[tdecs m1]|e] eqn:E; [|discriminate].
  pose proof (extractTypeMetadata_emitted _ "type" _ _ _ eq_refl E) as Ht.
  intros [= <- _]. emits.
Qed.

Lemma extractMethodMetadata_emitted (method : MethodDeclaration)
  (m m' : ImportMap) (decs : list Decorator) :
  extractMethodMetadata method m = Ok (decs, m') ->
  allEmitted emitStandardMetadata decs.
Proof.
  unfold extractMethodMetadata, bind at 1.
  destruct (extractParamsMetadata (method_parameters method) m)
    as [[params m1]|e] eqn:E; [|discriminate].
  pose proof (extractParamsMetadata_emitted _ _ _ _ E) as Hp.
  destruct (method_type method) as [ty|].
  - unfold bind at 1.
    destruct (serializeTypeRef (Some ty) true m1) as [[e1 m2]|e]; [|discriminate].
    unfold bind at 1.
    destruct (extractTypeMetadata (Some ty) "returntype" m2)
      as [[tdecs m3]|e] eqn:E3; [|discriminate].
    pose proof (extractTypeMetadata_emitted _ "returntype" _ _ _ eq_refl E3)
      as Ht.
    destruct (truthy emitStandardMetadata) eqn:Et; intros [= <- _]; emits.
  - destruct (truthy emitStandardMetadata) eqn:Et; intros [= <- _]; emits.
Qed.

(** The decorators the pass attaches are under the standard keys only when
    the value read from the option is true. *)
Lemma rttiTransformer_emitted (sourceFile result : SourceFile) :
  rttiTransformer sourceFile = Ok result ->
  exists visited,
    Forall2 (attached (allEmitted emitStandardMetadata))
      (statements sourceFile) visited
    /\ keptIn (RtHelper :: visited) (statements result).
Proof.
  unfold rttiTransformer. cbn [statements mapM visitor]. unfold bind at 1.
  unfold ret at 1. unfold bind at 1.
  destruct (mapM visitor (statements sourceFile) [])
    as [[visited m]|e] eqn:E; [|discriminate].
  unfold ret. intros [= <-]. exists visited. cbn [statements]. split.
  - apply (visitor_attaches_statements (allEmitted emitStandardMetadata)
             extractClassMetadata_emitted extractPropertyMetadata_emitted
             extractMethodMetadata_emitted _ _ _ _ E).
  - apply fold_generateImport_keptIn.
Qed.


End RttiTransformer.

(** [transformer(program)]: the host program as the call leaves it, and
    the transformer instance. *)
Definition transformer (program : Program)
  : Program * (TransformationContext -> SourceFile -> result SourceFile) :=
  let emitStandardMetadata := emitDecoratorMetadata (compilerOptions program) in
  let program' :=
    {| compilerOptions :=
         {| emitDecoratorMetadata := Some false;
            module := module (compilerOptions program) |};
       getReturnType := getReturnType program |} in
  (program', rttiTransformer program' emitStandardMetadata).

(** *** What processing reads of the host program *)

Lemma bind_ext {A B} (c1 c2 : M A) (k1 k2 : A -> M B) (m : ImportMap) :
  c1 m = c2 m -> (forall a m', k1 a m' = k2 a m') ->
  bind c1 k1 m = bind c2 k2 m.
Proof.
  intros Hc Hk. unfold bind. rewrite Hc.
  destruct (c2 m) as [[a m']|e]; [apply Hk | reflexivity].
Qed.

Lemma mapM_ext {A B} (g1 g2 : A -> M B) (l : list A) :
  Forall (fun x => forall m, g1 x m = g2 x m) l ->
  forall m, mapM g1 l m = mapM g2 l m.
Proof.
  induction 1 as [|x xs Hx _ IH]; intros m; simpl; [reflexivity|].
  apply bind_ext; [apply Hx | intros y m1].
  apply bind_ext; [apply IH | reflexivity].
Qed.

(** Two host programs whose type checkers give the same answers. *)
Section Reads.

Variables program1 program2 : Program.
Variable emitStandardMetadata : option bool.
Variable context : TransformationContext.
Hypothesis same_checker :
  forall method, getReturnType program1 method = getReturnType program2 method.

Lemma extractMethodMetadata_reads (method : MethodDeclaration)
  (m : ImportMap) :
  extractMethodMetadata program1 emitStandardMetadata context method m
  = extractMethodMetadata program2 emitStandardMetadata context method m.
Proof. unfold extractMethodMetadata. now rewrite same_checker. Qed.

Lemma visitClassElementWith_reads (visit1 visit2 : Node -> M Node)
  (node : ClassElement) :
  Forall (fun x => forall m, visit1 x m = visit2 x m) (memberChildren node) ->
  forall m,
    visitClassElementWith program1 emitStandardMetadata context visit1 node m
    = visitClassElementWith program2 emitStandardMetadata context visit2
        node m.
Proof.
  destruct node as [p ch | md ch | c ch | text ch]; simpl; intros Hch m.
  - apply bind_ext; [reflexivity | intros decs m1].
    apply bind_ext; [now apply mapM_ext | reflexivity].
  - apply bind_ext; [apply extractMethodMetadata_reads | intros decs m1].
    apply bind_ext; [now apply mapM_ext | reflexivity].
  - apply bind_ext; [now apply mapM_ext | reflexivity].
  - apply bind_ext; [now apply mapM_ext | reflexivity].
Qed.

Lemma members_read (visit1 visit2 : Node -> M Node)
  (l : list ClassElement) :
  Forall (fun member =>
            Forall (fun x => forall m, visit1 x m = visit2 x m)
              (memberChildren member)) l ->
  forall m,
    mapM (visitClassElementWith program1 emitStandardMetadata context visit1)
      l m
    = mapM (visitClassElementWith program2 emitStandardMetadata context visit2)
        l m.
Proof.
  intros H. apply mapM_ext. eapply Forall_impl; [|exact H].
  intros member. apply visitClassElementWith_reads.
Qed.

Lemma visitClassDeclarationWith_reads (visit1 visit2 : Node -> M Node)
  (node : ClassDeclaration) :
  Forall (fun x => forall m, visit1 x m = visit2 x m) (class_children node) ->
  Forall (fun member =>
            Forall (fun x => forall m, visit1 x m = visit2 x m)
              (memberChildren member)) (members node) ->
  forall m,
    visitClassDeclarationWith program1 emitStandardMetadata context visit1
      node m
    = visitClassDeclarationWith program2 emitStandardMetadata context visit2
        node m.
Proof.
  intros Hch Hms m. unfold visitClassDeclarationWith.
  apply bind_ext; [reflexivity | intros decs m1].
  apply bind_ext; [now apply mapM_ext | intros ch' m2].
  apply bind_ext; [now apply members_read | reflexivity].
Qed.

Lemma visitNode_reads (node : Node) :
  forall m,
    visitNode program1 emitStandardMetadata context node m
    = visitNode program2 emitStandardMetadata context node m.
Proof.
  induction node as [c Hch Hms | text ch ms Hch Hms | text ch Hch]
    using Node_induction; intros m; simpl.
  - apply bind_ext; [|reflexivity].
    now apply visitClassDeclarationWith_reads.
  - apply bind_ext; [now apply mapM_ext | intros ch' m1].
    apply bind_ext; [|reflexivity]. now apply members_read.
  - apply bind_ext; [|reflexivity]. now apply mapM_ext.
Qed.

Lemma visitor_reads :
  forall (node : Statement) (m : ImportMap),
    visitor program1 emitStandardMetadata context node m
    = visitor program2 emitStandardMetadata context node m.
Proof.
  fix IH 1. intros [d | c | | body | text children] m; simpl.
  - reflexivity.
  - apply bind_ext; [|reflexivity].
    apply visitClassDeclarationWith_reads; apply Forall_forall.
    + intros x _. apply visitNode_reads.
    + intros member _. apply Forall_forall. intros x _.
      apply visitNode_reads.
  - reflexivity.
  - apply bind_ext; [|reflexivity]. apply mapM_ext.
    induction body as [|s rest IHrest]; constructor;
      [apply IH | exact IHrest].
  - apply bind_ext; [|reflexivity]. apply mapM_ext, Forall_forall.
    intros x _. apply visitNode_reads.
Qed.

Lemma rttiTransformer_reads (sourceFile : SourceFile) :
  rttiTransformer program1 emitStandardMetadata context sourceFile
  = rttiTransformer program2 emitStandardMetadata context sourceFile.
Proof.
  unfold rttiTransformer.
  rewrite (mapM_ext (visitor program1 emitStandardMetadata context)
             (visitor program2 emitStandardMetadata context)).
  - reflexivity.
  - apply Forall_forall. intros x _. apply visitor_reads.
Qed.

End Reads.

(** C7, as the code has it: creating the transformer reads the host's
    [emitDecoratorMetadata] option and then sets it to [false], leaving
    the module option and the type checker as they were.  Processing a
    module reads the module kind from the transformation context and, of
    the program, only the answers of the type checker: the module the
    instance returns is the one the pass returns, with the value the
    option had, for any program whose checker gives the same answers,
    whatever compiler options it holds, so also for the program as it was
    before the change; and every decorator it attaches is a metadata
    decorator under one of the transformer's own keys or, only if the
    option was true when the transformer was created, under one of the
    standard keys. *)
Theorem transformer_host_state (program : Program) :
  let program' := fst (transformer program) in
  let emit := emitDecoratorMetadata (compilerOptions program) in
  compilerOptions program'
  = {| emitDecoratorMetadata := Some false;
       module := module (compilerOptions program) |}
  /\ getReturnType program' = getReturnType program
  /\ (forall (host : Program) context sourceFile,
        (forall method,
            getReturnType host method = getReturnType program method) ->
        snd (transformer program) context sourceFile
        = rttiTransformer host emit context sourceFile)
  /\ forall context sourceFile result,
       snd (transformer program) context sourceFile = Ok result ->
       exists visited,
         Forall2 (attached (allEmitted emit)) (statements sourceFile) visited
         /\ keptIn (RtHelper :: visited) (statements result).
Proof.
  cbn zeta. unfold transformer. cbn [fst snd compilerOptions getReturnType].
  split; [reflexivity|]. split; [reflexivity|]. split.
  - intros host context sourceFile Hsame.
    apply rttiTransformer_reads. intros method. symmetry. apply Hsame.
  - intros context sourceFile result. apply rttiTransformer_emitted.
Qed.

End Flags.

(** ** Runs on concrete modules

    The flag codes are those the transformer's header comment lists; the
    code of the optional marker, which it does not list, is taken to be
    the question mark. *)

Definition host (emit : option bool) (kind : ModuleKind) : Program :=
  {| compilerOptions :=
       {| emitDecoratorMetadata := emit; module := Some kind |};
     getReturnType := fun _ => {| flags := 1 |} |}.

Definition contextOf (kind : ModuleKind) : TransformationContext :=
  {| context_compilerOptions :=
       {| emitDecoratorMetadata := Some false; module := Some kind |} |}.

(** The transformer made for [host None kind], applied to a source file. *)
Definition rtti (kind : ModuleKind) (sourceFile : SourceFile)
  : result SourceFile :=
  snd (transformer "R" "A" "$" "#" "@" "P" "M" "C" "?" (host None kind))
    (contextOf kind) sourceFile.

(** The walk of that transformer over a list of statements. *)
Definition walk (kind : ModuleKind) (statements : list Statement)
  : result (list Statement * ImportMap) :=
  mapM (visitor "R" "A" "$" "#" "@" "P" "M" "C" "?" (host (Some false) kind)
          None (contextOf kind))
    statements [].

(** [import { propertyName as name } from path], or [import { name } from
    path] without [propertyName]. *)
Definition importNamed (at_ : Z) (prop : option string) (bound path : string)
  : ImportDeclaration :=
  {| pos := at_;
     importClause :=
       Some {| clause_name := None;
               namedBindings :=
                 Some (NamedImports
                         [{| propertyName := prop; spec_name := bound |}]) |};
     moduleSpecifier := path |}.

(** [import name from path] *)
Definition importDefault (at_ : Z) (bound path : string) : ImportDeclaration :=
  {| pos := at_;
     importClause := Some {| clause_name := Some bound; namedBindings := None |};
     moduleSpecifier := path |}.

(** [class name { x : type }] *)
Definition classWithProperty (className : string) (propertyType : TypeNode)
  : Statement :=
  ClassStatement
    {| class_decorators := [];
       class_modifiers := None;
       class_name := className;
       class_children := [];
       members :=
         [PropertyMember
            {| property_decorators := [];
               property_modifiers := None;
               property_name := "x";
               property_type := Some propertyType |}
            []] |}.

(** [class name {}] *)
Definition emptyClass (className : string) : Statement :=
  ClassStatement
    {| class_decorators := [];
       class_modifiers := None;
       class_name := className;
       class_children := [];
       members := [] |}.

(** [import { A as X } from "a"; import { A as Y } from "b"] *)
Definition twoAliasesOfA : list Statement :=
  [ ImportStatement (importNamed 0 (Some "A") "X" "a");
    ImportStatement (importNamed 30 (Some "A") "Y" "b") ].

(** [import { A } from "a"; class AΦ {}] *)
Definition declaresMarkedName : list Statement :=
  [ ImportStatement (importNamed 0 None "A" "a"); emptyClass "AΦ" ].

(** [import { Foo } from "./foo"; class C { x : Foo }] *)
Definition usesFoo : SourceFile :=
  {| statements :=
       [ ImportStatement (importNamed 0 None "Foo" "./foo");
         classWithProperty "C" (TypeReferenceNode (NameIdentifier "Foo")) ] |}.

(** [import { Foo } from "./foo"; class C { x : Foo.Bar }] *)
Definition usesFooBar : SourceFile :=
  {| statements :=
       [ ImportStatement (importNamed 0 None "Foo" "./foo");
         classWithProperty "C"
           (TypeReferenceNode (QualifiedName (NameIdentifier "Foo") "Bar")) ] |}.

(** [import X from "mod"; class C { x : X }] *)
Definition usesDefaultImport : SourceFile :=
  {| statements :=
       [ ImportStatement (importDefault 0 "X" "mod");
         classWithProperty "C" (TypeReferenceNode (NameIdentifier "X")) ] |}.

(** [import X, { Y } from "mod"] *)
Definition defaultAndNamed : ImportDeclaration :=
  {| pos := 0;
     importClause :=
       Some {| clause_name := Some "X";
               namedBindings :=
                 Some (NamedImports
                         [{| propertyName := None; spec_name := "Y" |}]) |};
     moduleSpecifier := "mod" |}.

(** [private optionalName?: string] and [count: number] *)
Definition twoParameters : list ParameterDeclaration :=
  [ {| param_modifiers := Some [PrivateKeyword];
       param_name := "optionalName";
       param_questionToken := true;
       param_type := Some (OtherTypeNode StringKeyword) |};
    {| param_modifiers := None;
       param_name := "count";
       param_questionToken := false;
       param_type := Some (OtherTypeNode NumberKeyword) |} ].

(** [run() {}], a method without parameters and return-type annotation. *)
Definition plainMethod : MethodDeclaration :=
  {| method_decorators := [];
     method_modifiers := None;
     method_name := "run";
     method_parameters := [];
     method_type := None |}.

(** The record of [import { Foo } from "./foo"]. *)
Definition fooRecord : TypeImport :=
  namedImportRecord (importNamed 0 None "Foo" "./foo")
    {| propertyName := None; spec_name := "Foo" |}.

(** C3, counterexample: the two records of
    [import { A as X } from "a"; import { A as Y } from "b"] have the same
    [localName], and the record of [import { A } from "a"] has as its
    [localName] the name of the class [AΦ] the module declares. *)
Lemma localName_collides :
  (exists visited importMap r1 r2,
     walk ES2015 twoAliasesOfA = Ok (visited, importMap)
     /\ map_get "X" importMap = Some r1
     /\ map_get "Y" importMap = Some r2
     /\ localName r1 = localName r2)
  /\ (exists visited importMap r,
        walk ES2015 declaresMarkedName = Ok (visited, importMap)
        /\ map_get "A" importMap = Some r
        /\ In (emptyClass (localName r)) declaresMarkedName).
Proof.
  split.
  - do 4 eexists. repeat split; reflexivity.
  - do 3 eexists. split; [reflexivity|]. split; [reflexivity|].
    right. left. reflexivity.
Qed.

(** C4, counterexample: the pass run on [usesFoo] inserts one import that
    binds [FooΦ]; run again on its own output it inserts a second one. *)
Lemma rerun_duplicates_alias_import :
  exists once twice,
    rtti ES2015 usesFoo = Ok once
    /\ rtti ES2015 once = Ok twice
    /\ bindingCount "FooΦ" (statements once) = 1%nat
    /\ bindingCount "FooΦ" (statements twice) = 2%nat.
Proof. do 2 eexists. repeat split; reflexivity. Qed.

(** C5, at the failing input: under CommonJS the reference [Foo.Bar] to
    the named import [Foo] makes the serializer throw in both modes, and
    with it the processing of the module, while the bare reference [Foo]
    is serialized as [require("./foo").Foo]. *)
Theorem commonjs_dotted_named_import_throws :
  serializeTypeRef (contextOf CommonJS)
    (Some (TypeReferenceNode (QualifiedName (NameIdentifier "Foo") "Bar")))
    true [("Foo", fooRecord)]
  = Throw (Error "Unsupported expression type 'PropertyAccessExpression'")
  /\ serializeTypeRef (contextOf CommonJS)
       (Some (TypeReferenceNode (QualifiedName (NameIdentifier "Foo") "Bar")))
       false [("Foo", fooRecord)]
     = Throw (Error "Unsupported expression type 'PropertyAccessExpression'")
  /\ rtti CommonJS usesFooBar
     = Throw (Error "Unsupported expression type 'PropertyAccessExpression'")
  /\ serializeTypeRef (contextOf CommonJS)
       (Some (TypeReferenceNode (NameIdentifier "Foo"))) true
       [("Foo", fooRecord)]
     = Ok (PropertyAccessExpression
             (CallExpression (Identifier "require") [StringLiteral "./foo"])
             "Foo",
           [("Foo", set_referenced fooRecord)]).
Proof. repeat split; reflexivity. Qed.

(** C7, counterexample: a host whose [emitDecoratorMetadata] option is
    [true] finds it [false] once the transformer has been created. *)
Lemma transformer_mutates_options :
  emitDecoratorMetadata (compilerOptions (host (Some true) ES2015)) = Some true
  /\ emitDecoratorMetadata
       (compilerOptions
          (fst (transformer "R" "A" "$" "#" "@" "P" "M" "C" "?"
                  (host (Some true) ES2015))))
     = Some false.
Proof. split; reflexivity. Qed.

(** C10, at the failing input: the walk over a module that holds
    [import X from "mod"] stops with a [TypeError] at that statement, so
    no reference to [X] is serialized and no module is returned; a
    side-effect import leaves no record, and neither does the default name
    of [import X, { Y } from "mod"], so that a reference to that [X] stays
    the bare name. *)
Theorem default_import_throws :
  rtti ES2015 usesDefaultImport = Throw TypeError
  /\ rtti CommonJS usesDefaultImport = Throw TypeError
  /\ walk ES2015
       [ImportStatement
          {| pos := 0; importClause := None; moduleSpecifier := "mod" |}]
     = Ok ([ImportStatement
              {| pos := 0; importClause := None; moduleSpecifier := "mod" |}],
           [])
  /\ (exists visited importMap,
        walk ES2015 [ImportStatement defaultAndNamed] = Ok (visited, importMap)
        /\ map_get "X" importMap = None
        /\ serializeTypeRef (contextOf ES2015)
             (Some (TypeReferenceNode (NameIdentifier "X"))) true importMap
           = Ok (Identifier "X", importMap)).
Proof.
  repeat split; try reflexivity.
  do 2 eexists. repeat split; reflexivity.
Qed.

(** ** Instances of the conditional theorems *)

(** C1 at a union type. *)
Lemma serializeTypeRef_unrecognized_union :
  recognizedShape (Some (OtherTypeNode UnionType)) = false
  /\ exists k,
       Some (OtherTypeNode UnionType) = Some (OtherTypeNode k)
       /\ serializeTypeRef (contextOf ES2015) (Some (OtherTypeNode UnionType))
            true []
          = Throw (Error ("Failed to serializeTypeRef for kind "
                            ++ SyntaxKind_name k ++ "!")%string)
       /\ serializeTypeRef (contextOf ES2015) (Some (OtherTypeNode UnionType))
            false []
          = Ok (Identifier "Object", []).
Proof.
  split; [reflexivity|].
  apply (serializeTypeRef_unrecognized (contextOf ES2015)
           (Some (OtherTypeNode UnionType)) []).
  reflexivity.
Defined.

(** C3 at [import { A as X } from "a"; import { A as Y } from "b"]. *)
Lemma localName_marked_twoAliases :
  walk ES2015 twoAliasesOfA
  = Ok (twoAliasesOfA,
        [ ("X", namedImportRecord (importNamed 0 (Some "A") "X" "a")
                  {| propertyName := Some "A"; spec_name := "X" |});
          ("Y", namedImportRecord (importNamed 30 (Some "A") "Y" "b")
                  {| propertyName := Some "A"; spec_name := "Y" |}) ])
  /\ Forall (fun impo =>
               exists base,
                 importedAs impo base
                 /\ localName impo = (base ++ "Φ")%string
                 /\ forall base', base' <> base ->
                                  localName impo <> (base' ++ "Φ")%string)
       (map_values
          [ ("X", namedImportRecord (importNamed 0 (Some "A") "X" "a")
                    {| propertyName := Some "A"; spec_name := "X" |});
            ("Y", namedImportRecord (importNamed 30 (Some "A") "Y" "b")
                    {| propertyName := Some "A"; spec_name := "Y" |}) ]).
Proof.
  split; [reflexivity|].
  apply (localName_marked "R" "A" "$" "#" "@" "P" "M" "C" "?"
           (host (Some false) ES2015) None (contextOf ES2015)
           twoAliasesOfA twoAliasesOfA).
  reflexivity.
Defined.

(** C4 at a second reference to [Foo]. *)
Lemma reference_again_Foo :
  serializeTypeRef (contextOf ES2015)
    (Some (TypeReferenceNode (NameIdentifier "Foo"))) true
    [("Foo", fooRecord)]
  = Ok (Identifier "FooΦ", [("Foo", set_referenced fooRecord)])
  /\ (serializeTypeRef (contextOf ES2015)
        (Some (TypeReferenceNode (NameIdentifier "Foo"))) true
        [("Foo", set_referenced fooRecord)]
      = Ok (Identifier "FooΦ", [("Foo", set_referenced fooRecord)])
      /\ map fst [("Foo", set_referenced fooRecord)]
         = map fst [("Foo", fooRecord)]
      /\ (length (generateImports (contextOf ES2015)
                    [("Foo", set_referenced fooRecord)] (statements usesFoo))
          <= length (statements usesFoo) + length [("Foo", fooRecord)])%nat
      /\ (forall x,
            bindingCount x
              (generateImports (contextOf ES2015)
                 [("Foo", set_referenced fooRecord)] (statements usesFoo))
            = (bindingCount x (statements usesFoo)
               + length (aliasRecords (contextOf ES2015) x
                           (map_values [("Foo", set_referenced fooRecord)])))%nat)
      /\ forall sourceFile result,
           rttiTransformer "R" "A" "$" "#" "@" "P" "M" "C" "?"
             (host (Some false) ES2015) None (contextOf ES2015) sourceFile
           = Ok result ->
           exists visited built,
             mapM (visitor "R" "A" "$" "#" "@" "P" "M" "C" "?"
                     (host (Some false) ES2015) None (contextOf ES2015))
               (RtHelper :: statements sourceFile) []
             = Ok (visited, built)
             /\ forall x,
                  bindingCount x (statements result)
                  = (bindingCount x (statements sourceFile)
                     + length (aliasRecords (contextOf ES2015) x
                                 (map_values built)))%nat).
Proof.
  split; [reflexivity|].
  apply (reference_again_no_second_alias "R" "A" "$" "#" "@" "P" "M" "C" "?"
           (host (Some false) ES2015) None (contextOf ES2015)
           (Some (TypeReferenceNode (NameIdentifier "Foo"))) true
           [("Foo", fooRecord)] [("Foo", set_referenced fooRecord)]
           (Identifier "FooΦ") (statements usesFoo)).
  reflexivity.
Defined.

(** C8 at [(private optionalName?: string, count: number)]. *)
Lemma extractParamsMetadata_twoParameters :
  (forall p, In p twoParameters ->
     exists c e,
       evalM (serializeTypeRef (contextOf ES2015) (param_type p) false) []
       = Ok c
       /\ evalM (serializeTypeRef (contextOf ES2015) (param_type p) true) []
          = Ok e)
  /\ exists metas rest importMap',
       extractParamsMetadata "R" "$" "#" "@" "?" None (contextOf ES2015)
         twoParameters []
       = Ok (metadataDecorator "rt:p" (serializedParams metas) :: rest,
             importMap')
       /\ length metas = length twoParameters
       /\ Forall2 (describes "R" "$" "#" "@" "?" (contextOf ES2015) [])
            twoParameters metas.
Proof.
  assert (H : forall p, In p twoParameters ->
     exists c e,
       evalM (serializeTypeRef (contextOf ES2015) (param_type p) false) []
       = Ok c
       /\ evalM (serializeTypeRef (contextOf ES2015) (param_type p) true) []
          = Ok e).
  { intros p [<- | [<- | []]]; do 2 eexists; split; reflexivity. }
  split; [exact H|].
  exact (extractParamsMetadata_descriptors "R" "$" "#" "@" "?" None
           (contextOf ES2015) twoParameters [] H).
Defined.

(** C9 at a method whose checked return type has none of the flags of the
    table. *)
Lemma extractMethodMetadata_plainMethod :
  method_type plainMethod = None
  /\ (let returnT := typeToTypeRef (getReturnType (host (Some false) ES2015)
                                      plainMethod) in
      returnT
      = lookupChecked (flags (getReturnType (host (Some false) ES2015)
                                plainMethod))
          checkedTypeTable
      /\ (Forall (fun entry =>
                    Z.land (flags (getReturnType (host (Some false) ES2015)
                                     plainMethod))
                      (fst entry) = 0%Z)
            checkedTypeTable ->
          returnT = Identifier "Object")
      /\ extractMethodMetadata "R" "A" "$" "#" "@" "M" "?"
           (host (Some false) ES2015) None (contextOf ES2015) plainMethod []
         = match extractParamsMetadata "R" "$" "#" "@" "?" None
                   (contextOf ES2015) (method_parameters plainMethod) [] with
           | Ok (params, importMap') =>
               Ok ((if truthy None
                    then [metadataDecorator "design:type"
                            (literalNode (Identifier "Function"))]
                    else [])
                   ++ params
                   ++ [metadataDecorator "rt:f"
                         (FlagString
                            ("M" ++ getVisibility "$" "#" "@"
                                      (method_modifiers plainMethod)
                               ++ isAbstract "A" (method_modifiers plainMethod))%string);
                       metadataDecorator "rt:t"
                         (literalNode (forwardRef returnT))]
                   ++ (if truthy None
                       then [metadataDecorator "design:returntype"
                               (literalNode VoidZero)]
                       else []),
                   importMap')
           | Throw e => Throw e
           end).
Proof.
  split; [reflexivity|].
  exact (extractMethodMetadata_inferred_return "R" "A" "$" "#" "@" "M" "?"
           (host (Some false) ES2015) None (contextOf ES2015) plainMethod []
           eq_refl).
Defined.

(** ** Instances of the further conditional theorems *)

(** [class C { x : Foo }] as a class declaration. *)
Definition fooClass : ClassDeclaration :=
  {| class_decorators := [];
     class_modifiers := None;
     class_name := "C";
     class_children := [];
     members :=
       [PropertyMember
          {| property_decorators := [];
             property_modifiers := None;
             property_name := "x";
             property_type :=
               Some (TypeReferenceNode (NameIdentifier "Foo")) |}
          []] |}.

(** A class with two constructor declarations, the first after another
    member: [constructor(private optionalName?: string, count: number)]
    and [constructor()]. *)
Definition twoConstructors : ClassDeclaration :=
  {| class_decorators := [];
     class_modifiers := Some [ExportKeyword; AbstractKeyword];
     class_name := "D";
     class_children := [];
     members :=
       [ OtherMember "static {}" [];
         ConstructorMember {| constructor_parameters := twoParameters |} [];
         ConstructorMember {| constructor_parameters := [] |} [] ] |}.

(** [list(): string[]] *)
Definition annotatedMethod : MethodDeclaration :=
  {| method_decorators := [];
     method_modifiers := Some [ProtectedKeyword];
     method_name := "list";
     method_parameters := [];
     method_type := Some (ArrayTypeNode (OtherTypeNode StringKeyword)) |}.

(** [count: number] *)
Definition countParameter : ParameterDeclaration :=
  {| param_modifiers := None;
     param_name := "count";
     param_questionToken := false;
     param_type := Some (OtherTypeNode NumberKeyword) |}.

(** [value: string | number], a parameter of a union type. *)
Definition unionParameter : ParameterDeclaration :=
  {| param_modifiers := None;
     param_name := "value";
     param_questionToken := false;
     param_type := Some (OtherTypeNode UnionType) |}.

(** X1 at [public readonly] and [readonly public readonly]. *)
Lemma flags_depend_on_kinds_only_reordered :
  (forall k,
     In k (modifierList (Some [PublicKeyword; ReadonlyKeyword]))
     <-> In k (modifierList
                 (Some [ReadonlyKeyword; PublicKeyword; ReadonlyKeyword])))
  /\ (getVisibility "$" "#" "@" (Some [PublicKeyword; ReadonlyKeyword])
      = getVisibility "$" "#" "@"
          (Some [ReadonlyKeyword; PublicKeyword; ReadonlyKeyword])
      /\ isReadOnly "R" (Some [PublicKeyword; ReadonlyKeyword])
         = isReadOnly "R"
             (Some [ReadonlyKeyword; PublicKeyword; ReadonlyKeyword])
      /\ isAbstract "A" (Some [PublicKeyword; ReadonlyKeyword])
         = isAbstract "A"
             (Some [ReadonlyKeyword; PublicKeyword; ReadonlyKeyword])).
Proof.
  assert (H : forall k,
     In k (modifierList (Some [PublicKeyword; ReadonlyKeyword]))
     <-> In k (modifierList
                 (Some [ReadonlyKeyword; PublicKeyword; ReadonlyKeyword]))).
  { intros k. simpl. tauto. }
  split; [exact H|].
  exact (flags_depend_on_kinds_only "R" "A" "$" "#" "@" _ _ H).
Defined.

(** X2 at [number[]]. *)
Lemma coarse_agrees_with_extended_numbers :
  evalM (serializeTypeRef (contextOf ES2015)
           (Some (ArrayTypeNode (OtherTypeNode NumberKeyword))) true) []
  = Ok (ArrayLiteralExpression [Identifier "Number"])
  /\ evalM (serializeTypeRef (contextOf ES2015)
              (Some (ArrayTypeNode (OtherTypeNode NumberKeyword))) false) []
     = Ok (Identifier "Array").
Proof.
  split; [reflexivity|].
  exact (coarse_agrees_with_extended (contextOf ES2015)
           (Some (ArrayTypeNode (OtherTypeNode NumberKeyword))) []
           (ArrayLiteralExpression [Identifier "Number"]) eq_refl).
Defined.

(** X4 at a union type under ES2015. *)
Lemma serializeTypeRef_outside_commonjs_union :
  isCommonJS (contextOf ES2015) = false
  /\ ((exists c importMap',
         serializeTypeRef (contextOf ES2015) (Some (OtherTypeNode UnionType))
           false []
         = Ok (c, importMap'))
      /\ (forall err,
            serializeTypeRef (contextOf ES2015)
              (Some (OtherTypeNode UnionType)) true []
            = Throw err ->
            exists k,
              recognizedShape (Some (OtherTypeNode k)) = false
              /\ err = Error ("Failed to serializeTypeRef for kind "
                                ++ SyntaxKind_name k ++ "!")%string)).
Proof.
  split; [reflexivity|].
  exact (serializeTypeRef_outside_commonjs (contextOf ES2015)
           (Some (OtherTypeNode UnionType)) [] eq_refl).
Defined.

(** X7 at the reference [Foo] to [import { Foo } from "./foo"]. *)
Lemma alias_is_imported_Foo :
  map_get (getRootNameOfEntityName (NameIdentifier "Foo")) [("Foo", fooRecord)]
  = Some fooRecord
  /\ (isCommonJS (contextOf ES2015) = false \/ isNamespace fooRecord = true)
  /\ serializeTypeRef (contextOf ES2015)
       (Some (TypeReferenceNode (NameIdentifier "Foo"))) true
       [("Foo", fooRecord)]
     = Ok (Identifier "FooΦ", [("Foo", set_referenced fooRecord)])
  /\ (Identifier "FooΦ"
      = nameAsExpr (NameIdentifier "Foo") (localName fooRecord)
      /\ exists d,
           In (ImportStatement d)
             (generateImports (contextOf ES2015)
                [("Foo", set_referenced fooRecord)] (statements usesFoo))
           /\ boundNames d = [localName fooRecord]
           /\ moduleSpecifier d
              = moduleSpecifier (importDeclaration fooRecord)).
Proof.
  split; [reflexivity|]. split; [left; reflexivity|].
  split; [reflexivity|].
  exact (alias_is_imported (contextOf ES2015) (NameIdentifier "Foo") true
           fooRecord [("Foo", fooRecord)] [("Foo", set_referenced fooRecord)]
           (Identifier "FooΦ") (statements usesFoo)
           eq_refl (or_introl eq_refl) eq_refl).
Defined.

(** X8 at [import { A as X } from "a"] and the name [X]. *)
Lemma visitImportDeclaration_lookup_X :
  visitImportDeclaration (importNamed 0 (Some "A") "X" "a") []
  = Ok (tt, [("X", namedImportRecord (importNamed 0 (Some "A") "X" "a")
                     {| propertyName := Some "A"; spec_name := "X" |})])
  /\ ((In "X" (trackedNames (importNamed 0 (Some "A") "X" "a")) ->
       exists r,
         map_get "X"
           [("X", namedImportRecord (importNamed 0 (Some "A") "X" "a")
                    {| propertyName := Some "A"; spec_name := "X" |})]
         = Some r
         /\ freshRecordOf (importNamed 0 (Some "A") "X" "a") "X" r)
      /\ (~ In "X" (trackedNames (importNamed 0 (Some "A") "X" "a")) ->
          map_get "X"
            [("X", namedImportRecord (importNamed 0 (Some "A") "X" "a")
                     {| propertyName := Some "A"; spec_name := "X" |})]
          = map_get "X" [])).
Proof.
  split; [reflexivity|].
  exact (visitImportDeclaration_lookup (importNamed 0 (Some "A") "X" "a") "X"
           [] _ tt eq_refl).
Defined.

(** [x : type], a property declaration without decorators or modifiers. *)
Definition propertyX (decorators : list Decorator) (propertyType : TypeNode)
  : PropertyDeclaration :=
  {| property_decorators := decorators;
     property_modifiers := None;
     property_name := "x";
     property_type := Some propertyType |}.

(** [const X = class { x : type }]: the property is a member of a class
    expression, which is the initializer of a variable declaration. *)
Definition classExpressionWithProperty (decorators : list Decorator)
  (propertyType : TypeNode) : Statement :=
  OtherStatement "const X ="
    [MembersNode "class" []
       [PropertyMember (propertyX decorators propertyType) []]].

(** The decorators of [x : Foo] after the visit, for a named import
    [Foo]. *)
Definition fooDecorators : list Decorator :=
  [ metadataDecorator "rt:t"
      (literalNode (ArrowFunction (Identifier "FooΦ")));
    metadataDecorator "rt:f" (FlagString "P$") ].

(** X9 at [const X = class { x : Foo }], after [import { Foo } from
    "./foo"]. *)
Lemma visitor_attaches_classExpression :
  visitor "R" "A" "$" "#" "@" "P" "M" "C" "?" (host (Some false) ES2015) None
    (contextOf ES2015)
    (classExpressionWithProperty [] (TypeReferenceNode (NameIdentifier "Foo")))
    [("Foo", fooRecord)]
  = Ok (classExpressionWithProperty fooDecorators
          (TypeReferenceNode (NameIdentifier "Foo")),
        [("Foo", set_referenced fooRecord)])
  /\ attached holdsFlags
       (classExpressionWithProperty []
          (TypeReferenceNode (NameIdentifier "Foo")))
       (classExpressionWithProperty fooDecorators
          (TypeReferenceNode (NameIdentifier "Foo"))).
Proof.
  split; [reflexivity|].
  exact (visitor_attaches "R" "A" "$" "#" "@" "P" "M" "C" "?"
           (host (Some false) ES2015) None (contextOf ES2015)
           (classExpressionWithProperty []
              (TypeReferenceNode (NameIdentifier "Foo")))
           (classExpressionWithProperty fooDecorators
              (TypeReferenceNode (NameIdentifier "Foo")))
           [("Foo", fooRecord)] [("Foo", set_referenced fooRecord)] eq_refl).
Defined.

(** [import { Foo } from "./foo"; const X = class { x : Foo }] *)
Definition usesFooInClassExpression : SourceFile :=
  {| statements :=
       [ ImportStatement (importNamed 0 None "Foo" "./foo");
         classExpressionWithProperty []
           (TypeReferenceNode (NameIdentifier "Foo")) ] |}.

(** That module after the pass: the property of the class expression is
    decorated and the alias of [Foo] is imported. *)
Definition usesFooInClassExpression_result : list Statement :=
  [ RtHelper;
    ImportStatement (ownedImpo (set_referenced fooRecord));
    ImportStatement (importNamed 0 None "Foo" "./foo");
    classExpressionWithProperty fooDecorators
      (TypeReferenceNode (NameIdentifier "Foo")) ].

(** X10 at [import { Foo } from "./foo"; const X = class { x : Foo }]. *)
Lemma rttiTransformer_keeps_statements_classExpression :
  rttiTransformer "R" "A" "$" "#" "@" "P" "M" "C" "?"
    (host (Some false) ES2015) None (contextOf ES2015)
    usesFooInClassExpression
  = Ok {| statements := usesFooInClassExpression_result |}
  /\ exists visited,
       Forall2 (attached holdsFlags) (statements usesFooInClassExpression)
         visited
       /\ keptIn (RtHelper :: visited) usesFooInClassExpression_result
       /\ forall s,
            In s usesFooInClassExpression_result ->
            In s (RtHelper :: visited)
            \/ exists d, s = ImportStatement d /\ pos d = (-1)%Z.
Proof.
  split; [reflexivity|].
  exact (rttiTransformer_keeps_statements "R" "A" "$" "#" "@" "P" "M" "C" "?"
           (host (Some false) ES2015) None (contextOf ES2015)
           usesFooInClassExpression
           {| statements := usesFooInClassExpression_result |}
           eq_refl).
Defined.

(** X12 at [protected list(): string[]], with the standard metadata on. *)
Lemma extractMethodMetadata_annotated_list :
  method_type annotatedMethod
  = Some (ArrayTypeNode (OtherTypeNode StringKeyword))
  /\ evalM (extractMethodMetadata "R" "A" "$" "#" "@" "M" "?"
              (host (Some false) ES2015) (Some true) (contextOf ES2015)
              annotatedMethod) []
     = Ok [ metadataDecorator "design:type"
              (literalNode (Identifier "Function"));
            metadataDecorator "rt:p" (serializedParams []);
            metadataDecorator "design:paramtypes" (literalNodes []);
            metadataDecorator "rt:f" (FlagString "M@");
            metadataDecorator "rt:t"
              (literalNode
                 (ArrowFunction
                    (ArrayLiteralExpression [Identifier "String"])));
            metadataDecorator "design:returntype"
              (literalNode (Identifier "Array")) ].
Proof.
  split; [reflexivity|].
  exact (extractMethodMetadata_annotated "R" "A" "$" "#" "@" "M" "?"
           (host (Some false) ES2015) (Some true) (contextOf ES2015)
           annotatedMethod (ArrayTypeNode (OtherTypeNode StringKeyword)) []
           eq_refl).
Defined.

(** X13 at the class with two constructor declarations. *)
Lemma extractClassMetadata_first_of_two :
  members twoConstructors
  = [OtherMember "static {}" []]
    ++ ConstructorMember {| constructor_parameters := twoParameters |} []
       :: [ConstructorMember {| constructor_parameters := [] |} []]
  /\ Forall notConstructor [OtherMember (N := Node) "static {}" []]
  /\ extractClassMetadata "R" "A" "$" "#" "@" "C" "?" None (contextOf ES2015)
       twoConstructors []
     = match extractParamsMetadata "R" "$" "#" "@" "?" None (contextOf ES2015)
               twoParameters [] with
       | Ok (params, importMap') =>
           Ok (params ++ [metadataDecorator "rt:f" (FlagString "C$A")],
               importMap')
       | Throw err => Throw err
       end.
Proof.
  assert (H : Forall notConstructor [OtherMember (N := Node) "static {}" []]).
  { constructor; [exact I | constructor]. }
  split; [reflexivity|]. split; [exact H|].
  exact (extractClassMetadata_first_constructor "R" "A" "$" "#" "@" "C" "?"
           None (contextOf ES2015) twoConstructors
           [OtherMember "static {}" []]
           [ConstructorMember {| constructor_parameters := [] |} []]
           {| constructor_parameters := twoParameters |} [] [] eq_refl H).
Defined.

(** X14 at [class C { x : Foo }]. *)
Lemma extractClassMetadata_no_constructor_fooClass :
  Forall notConstructor (members fooClass)
  /\ extractClassMetadata "R" "A" "$" "#" "@" "C" "?" None (contextOf ES2015)
       fooClass [("Foo", fooRecord)]
     = Ok ([metadataDecorator "rt:f" (FlagString "C$")], [("Foo", fooRecord)]).
Proof.
  assert (H : Forall notConstructor (members fooClass)).
  { constructor; [exact I | constructor]. }
  split; [exact H|].
  exact (extractClassMetadata_no_constructor "R" "A" "$" "#" "@" "C" "?"
           None (contextOf ES2015) fooClass [("Foo", fooRecord)] H).
Defined.

(** X15 at [(private optionalName?: string, count: number)], with the
    standard metadata on. *)
Lemma extractParamsMetadata_paramtypes_twoParameters :
  (forall p, In p twoParameters ->
     exists c e,
       evalM (serializeTypeRef (contextOf ES2015) (param_type p) false) []
       = Ok c
       /\ evalM (serializeTypeRef (contextOf ES2015) (param_type p) true) []
          = Ok e)
  /\ exists metas coarse importMap',
       extractParamsMetadata "R" "$" "#" "@" "?" (Some true)
         (contextOf ES2015) twoParameters []
       = Ok (metadataDecorator "rt:p" (serializedParams metas)
             :: (if truthy (Some true)
                 then [metadataDecorator "design:paramtypes"
                         (literalNodes coarse)]
                 else []),
             importMap')
       /\ Forall2 (fun p c =>
                     evalM (serializeTypeRef (contextOf ES2015) (param_type p)
                              false) []
                     = Ok c)
            twoParameters coarse
       /\ sameImports importMap' [].
Proof.
  assert (H : forall p, In p twoParameters ->
     exists c e,
       evalM (serializeTypeRef (contextOf ES2015) (param_type p) false) []
       = Ok c
       /\ evalM (serializeTypeRef (contextOf ES2015) (param_type p) true) []
          = Ok e).
  { intros p [<- | [<- | []]]; do 2 eexists; split; reflexivity. }
  split; [exact H|].
  exact (extractParamsMetadata_paramtypes "R" "$" "#" "@" "?" (Some true)
           (contextOf ES2015) twoParameters [] H).
Defined.

(** X16 at [(count: number, value: string | number, ...)]. *)
Lemma extractParamsMetadata_first_failure_union :
  (forall q, In q [countParameter] ->
     exists e,
       evalM (serializeTypeRef (contextOf ES2015) (param_type q) true) []
       = Ok e)
  /\ evalM (serializeTypeRef (contextOf ES2015) (param_type unionParameter)
              true) []
     = Throw (Error "Failed to serializeTypeRef for kind UnionType!")
  /\ extractParamsMetadata "R" "$" "#" "@" "?" None (contextOf ES2015)
       ([countParameter] ++ unionParameter :: twoParameters) []
     = Throw (Error "Failed to serializeTypeRef for kind UnionType!").
Proof.
  assert (H : forall q, In q [countParameter] ->
     exists e,
       evalM (serializeTypeRef (contextOf ES2015) (param_type q) true) []
       = Ok e).
  { intros q [<- | []]. eexists. reflexivity. }
  split; [exact H|]. split; [reflexivity|].
  exact (extractParamsMetadata_first_failure "R" "$" "#" "@" "?" None
           (contextOf ES2015) [countParameter] twoParameters
           unionParameter [] _ H eq_refl).
Defined.

(** X17 at [class C { x : Foo }] with [Foo] a tracked import. *)
Lemma visitClassDeclaration_only_marks_fooClass :
  visitClassDeclaration "R" "A" "$" "#" "@" "P" "M" "C" "?"
    (host (Some false) ES2015) None (contextOf ES2015) fooClass
    [("Foo", fooRecord)]
  = Ok ({| class_decorators := [metadataDecorator "rt:f" (FlagString "C$")];
           class_modifiers := None;
           class_name := "C";
           class_children := [];
           members :=
             [PropertyMember
                {| property_decorators :=
                     [ metadataDecorator "rt:t"
                         (literalNode (ArrowFunction (Identifier "FooΦ")));
                       metadataDecorator "rt:f" (FlagString "P$") ];
                   property_modifiers := None;
                   property_name := "x";
                   property_type :=
                     Some (TypeReferenceNode (NameIdentifier "Foo")) |}
                []] |},
        [("Foo", set_referenced fooRecord)])
  /\ marksFrom [("Foo", fooRecord)] [("Foo", set_referenced fooRecord)].
Proof.
  split; [reflexivity|].
  exact (visitClassDeclaration_only_marks "R" "A" "$" "#" "@" "P" "M" "C" "?"
           (host (Some false) ES2015) None (contextOf ES2015) fooClass _
           [("Foo", fooRecord)] [("Foo", set_referenced fooRecord)] eq_refl).
Defined.
